(** * Financial report generator: the aggregation pipeline of fin_report_app.py

    A shallow embedding of [process_data], of the upload path of [main] and
    of the two exporters, with the properties of the written specification
    stated over it.

    Modelling conventions.
    - A pandas DataFrame argument is a [frame]: named, typed columns.  The
      tables produced by [groupby(...).sum().unstack(fill_value=0)] are
      [pivot]s: a month index, a list of column labels and one row of cells
      per month.
    - Amount columns have dtype int64: their values are integers ([Z]) and
      every sum, product and difference of the code is taken modulo 2^64
      ([wrap64]), as numpy does.  A cell of a produced table is a [value],
      either a number or [NaN] (pandas' missing value); where the alignment
      of two Series brings in a [NaN], the Series is float64 and its numbers
      are rounded to 53 bits ([float64]).  Columns of dtype float64 in the
      input are outside this model.
    - A date cell can be [NaT] and a text cell can be missing; the grouping
      drops the rows that have no month or no label.
    - Python objects live in a [heap]; the aggregator receives and returns
      references, so that in-place updates and aliasing are visible.
    - Exceptions are values of [exn] in an error monad. *)

From Stdlib Require Import ZArith String Ascii.
From stdpp Require Import base option list sorting gmap strings.

Local Open Scope string_scope.
Local Open Scope list_scope.
Local Open Scope Z_scope.

(** ** Calendar dates and monthly bins *)

Record date := Date { year : Z; month : Z; day : Z }.

(** The bin of [pd.Grouper(key='date', freq='M')]: two dates share a bin
    exactly when they share year and month.  (pandas labels the bin by the
    last day of that month.) *)
Definition period : Type := Z * Z.

Definition month_of (d : date) : period := (year d, month d).

Definition period_leb (a b : period) : bool :=
  (a.1 <? b.1) || ((a.1 =? b.1) && (a.2 <=? b.2)).

Definition date_leb (a b : date) : bool :=
  (year a <? year b)
  || ((year a =? year b)
      && ((month a <? month b) || ((month a =? month b) && (day a <=? day b)))).

#[global] Instance date_eq_dec : EqDecision date.
Proof. solve_decision. Defined.

(** ** Labels: the values of a grouping column, later column names *)

Inductive label :=
| Str (s : string)
| Int (z : Z)
| Timestamp (d : date).

#[global] Instance label_eq_dec : EqDecision label.
Proof. solve_decision. Defined.

Definition label_rank (l : label) : Z :=
  match l with Str _ => 0 | Int _ => 1 | Timestamp _ => 2 end.

Definition label_leb (a b : label) : bool :=
  match a, b with
  | Str s, Str t => String.leb s t
  | Int x, Int y => x <=? y
  | Timestamp d, Timestamp e => date_leb d e
  | _, _ => label_rank a <=? label_rank b
  end.

Definition key : Type := period * label.

Definition key_leb (a b : key) : bool :=
  if decide (a.1 = b.1) then label_leb a.2 b.2 else period_leb a.1 b.1.

(** ** Sorted, duplicate-free key lists (pandas sorts group keys) *)

Section Sorting.
Context {A : Type} (leb : A → A → bool).

Fixpoint insert_sorted (x : A) (l : list A) : list A :=
  match l with
  | [] => [x]
  | y :: t => if leb x y then x :: l else y :: insert_sorted x t
  end.

Definition sort (l : list A) : list A := foldr insert_sorted [] l.

Definition unique_sorted `{EqDecision A} (l : list A) : list A :=
  sort (remove_dups l).
End Sorting.

(** ** Lookups in association lists and positions in label lists *)

Fixpoint assoc {K V : Type} `{EqDecision K} (k : K) (l : list (K * V)) : option V :=
  match l with
  | [] => None
  | (k', v) :: t => if decide (k = k') then Some v else assoc k t
  end.

Fixpoint position {A : Type} `{EqDecision A} (x : A) (l : list A) : option nat :=
  match l with
  | [] => None
  | y :: t => if decide (x = y) then Some 0%nat else S <$> position x t
  end.

Definition Zsum (l : list Z) : Z := foldr Z.add 0 l.

(** ** Machine numbers *)

(** The value of an int64 after an operation whose exact result is [z]:
    numpy wraps around silently. *)
Definition wrap64 (z : Z) : Z := (z + 2 ^ 63) mod 2 ^ 64 - 2 ^ 63.

(** [.sum()] of an int64 column. *)
Definition isum (l : list Z) : Z := wrap64 (Zsum l).

(** The float64 nearest to the integer [z], ties to even: what the
    conversion of an int64 to float64 gives, and also the correctly rounded
    result of a float64 operation whose exact result is the integer [z]. *)
Definition float64 (z : Z) : Z :=
  let e := Z.log2 (Z.abs z) - 52 in
  if e <=? 0 then z
  else
    let q := z / 2 ^ e in
    let r := z mod 2 ^ e in
    let half := 2 ^ (e - 1) in
    if r <? half then q * 2 ^ e
    else if half <? r then (q + 1) * 2 ^ e
    else if Z.even q then q * 2 ^ e
    else (q + 1) * 2 ^ e.

(** ** Exceptions *)

Inductive exn :=
| KeyError (k : label)
| TypeError
| EmptyChartSeries           (* xlsxwriter: a chart without a data series *)
| FileNotFoundError.

Inductive result (A : Type) :=
| Ok (a : A)
| Raise (e : exn).
Arguments Ok {A} a.
Arguments Raise {A} e.

#[global] Instance result_ret : MRet result := λ A a, Ok a.
#[global] Instance result_bind : MBind result := λ A B f m,
  match m with Ok a => f a | Raise e => Raise e end.

(** ** Input tables *)

(** A column with its dtype. *)
Inductive column :=
| Datetime (v : list (option date))    (* datetime64[ns]; [None] is NaT *)
| Object (v : list (option string))    (* object: text; [None] is a missing cell *)
| Int64 (v : list Z).                  (* int64 *)

(** A DataFrame as the aggregator receives it: column name -> column. *)
Definition frame : Type := list (string * column).

(** [df[name]] *)
Definition getitem (df : frame) (name : string) : result column :=
  match assoc name df with
  | Some c => Ok c
  | None => Raise (KeyError (Str name))
  end.

(** A time [Grouper] only accepts a datetime column. *)
Definition as_datetime (c : column) : result (list (option date)) :=
  match c with
  | Datetime v => Ok v
  | _ => Raise TypeError
  end.

(** Any column can serve as a grouping key; a row whose cell is missing has
    no label. *)
Definition labels (c : column) : list (option label) :=
  match c with
  | Datetime v => (λ d : option date, Timestamp <$> d) <$> v
  | Object v => (λ s : option string, Str <$> s) <$> v
  | Int64 v => (λ z : Z, Some (Int z)) <$> v
  end.

(** The numbers of a column that is summed or multiplied.  An empty text
    column (what a header-only CSV gives) sums to 0.  On text or dates in a
    numeric position pandas adds, repeats or concatenates the cells or
    raises, depending on the operation; the model stops at the first
    arithmetic on such a column and reports a [TypeError]. *)
Definition as_numeric (c : column) : result (list Z) :=
  match c with
  | Int64 v => Ok v
  | Object [] => Ok []
  | _ => Raise TypeError
  end.

(** ** Produced tables *)

Inductive value :=
| Val (z : Z)
| NaN.

#[global] Instance value_eq_dec : EqDecision value.
Proof. solve_decision. Defined.

(** [skipna=True]: a missing value counts for nothing in a sum. *)
Definition skipna (v : value) : Z :=
  match v with Val z => z | NaN => 0 end.

(** A Series indexed by month. *)
Definition Series : Type := list (period * value).

(** A month-indexed table: [columns] names the cells of every row. *)
Record pivot := Pivot_ { columns : list label; rows : list (period * list value) }.

Definition index (p : pivot) : list period := (rows p).*1.

(** [p.loc[m, c]] as an optional cell: [None] when there is no such cell. *)
Definition at_ (p : pivot) (m : period) (c : label) : option value :=
  row ← assoc m (rows p);
  i ← position c (columns p);
  row !! i.

(** The rows that a [groupby] keeps: those with a month and a label. *)
Definition dropna (keys : list (option key)) (amounts : list Z)
  : list (key * Z) :=
  omap (λ r, k ← r.1; Some (k, r.2)) (zip keys amounts).

(** [groupby([Grouper(key='date', freq='M'), by])[...].sum()]: one entry per
    observed (month, label) pair, keys sorted, the amounts of the pair's rows
    added up in int64. *)
Definition groupby_sum (keys : list key) (amounts : list Z) : list (key * Z) :=
  let rows := zip keys amounts in
  (λ k, (k, isum ((filter (λ r, r.1 = k) rows).*2)))
    <$> unique_sorted key_leb (rows.*1).

(** [.unstack(fill_value=...)]: the last key level becomes the columns; a
    (month, label) pair that was not observed gets [fill_value]. *)
Definition unstack (fill_value : Z) (s : list (key * Z)) : pivot :=
  let cols := unique_sorted label_leb (s.*1.*2) in
  {| columns := cols;
     rows := (λ m, (m, (λ c, Val (default fill_value (assoc (m, c) s))) <$> cols))
               <$> unique_sorted period_leb (s.*1.*1) |}.

(** [p.sum(axis=1)] on an int64 table, which both tables it is applied to
    are: they come straight from [unstack(fill_value=0)]. *)
Definition sum_axis1 (p : pivot) : Series :=
  (λ r, (r.1, Val (isum (skipna <$> r.2)))) <$> rows p.

(** A Series that holds a NaN has dtype float64. *)
Definition is_float (s : Series) : bool := bool_decide (NaN ∈ s.*2).

(** [x - y] on two cells: in int64 with wrap-around, or, when one of the two
    Series is float64, on the float64 values of the cells; NaN on either
    side gives NaN. *)
Definition vsub (float : bool) (x y : value) : value :=
  match x, y with
  | Val a, Val b =>
      if float then Val (float64 (float64 a - float64 b))
      else Val (wrap64 (a - b))
  | _, _ => NaN
  end.

(** [a - b] on Series.  With equal indexes the subtraction goes entry by
    entry.  Otherwise both operands are first aligned on the sorted union of
    their indexes: a month that one of them lacks gets NaN there, which
    makes the Series float64. *)
Definition series_sub (a b : Series) : Series :=
  if bool_decide (a.*1 = b.*1) then
    zip_with (λ x y, (x.1, vsub (is_float a || is_float b) x.2 y.2)) a b
  else
    (λ m, (m, vsub true (default NaN (assoc m a)) (default NaN (assoc m b))))
      <$> unique_sorted period_leb (a.*1 ++ b.*1).

(** [p[c]] *)
Definition pivot_getitem (p : pivot) (c : label) : result Series :=
  match position c (columns p) with
  | Some i => Ok ((λ r, (r.1, default NaN (r.2 !! i))) <$> rows p)
  | None => Raise (KeyError c)
  end.

(** [p[c] = s]: the Series is aligned on the table's index; an existing
    column is overwritten in place, a new one is appended. *)
Definition pivot_setitem (p : pivot) (c : label) (s : Series) : pivot :=
  let cell m := default NaN (assoc m s) in
  match position c (columns p) with
  | Some i =>
      {| columns := columns p;
         rows := (λ r, (r.1, <[i := cell r.1]> r.2)) <$> rows p |}
  | None =>
      {| columns := columns p ++ [c];
         rows := (λ r, (r.1, r.2 ++ [cell r.1])) <$> rows p |}
  end.

(** ** The store of Python objects and the monad of the embedding *)

Inductive object :=
| Frame (f : frame)
| Pivot (p : pivot)
| SeriesObj (s : Series).

Abbreviation loc := nat (only parsing).
Abbreviation heap := (list object) (only parsing).

(** A computation over a state [S] that returns or raises. *)
Definition M (S A : Type) : Type := S → result A * S.

#[global] Instance M_ret {S} : MRet (M S) := λ A a s, (Ok a, s).
#[global] Instance M_bind {S} : MBind (M S) := λ A B f m s,
  match m s with
  | (Ok a, s') => f a s'
  | (Raise e, s') => (Raise e, s')
  end.

Definition lift {S A} (r : result A) : M S A := λ s, (r, s).

(** A new object gets the next free address. *)
Definition new (o : object) : M heap loc := λ h, (Ok (length h), h ++ [o]).

Definition read_frame (l : loc) : M heap frame := λ h,
  match h !! l with
  | Some (Frame f) => (Ok f, h)
  | _ => (Raise TypeError, h)
  end.

Definition read_pivot (l : loc) : M heap pivot := λ h,
  match h !! l with
  | Some (Pivot p) => (Ok p, h)
  | _ => (Raise TypeError, h)
  end.

(** In-place update of the object at [l]. *)
Definition write (l : loc) (o : object) : M heap unit := λ h, (Ok tt, <[l := o]> h).

(** ** The aggregator: [process_data] *)

(** The dict returned by [process_data]: tables by reference, totals by
    value. *)
Record financial_data := {
  monthly_income : loc;
  total_income : Z;
  monthly_expenses : loc;
  total_expenses : Z;
  monthly_pnl : loc;
  monthly_inventory_value : loc;
  total_inventory_value : Z;
  monthly_cash_flow : loc
}.

(** [df.groupby([pd.Grouper(key='date', freq='M'), by])]: the key of every
    row. *)
Definition groupby_month (df : frame) (by_ : string)
  : result (list (option key)) :=
  d ← getitem df "date";
  dates ← as_datetime d;
  k ← getitem df by_;
  mret (zip_with (λ d l, d ← d; l ← l; Some (month_of d, l)) dates (labels k)).

(** [df.groupby([..., by])[value].sum().unstack(fill_value=0)] *)
Definition monthly_sum (df : frame) (by_ value : string) : result pivot :=
  keys ← groupby_month df by_;
  a ← getitem df value;
  amounts ← as_numeric a;
  let rows := dropna keys amounts in
  mret (unstack 0 (groupby_sum rows.*1 rows.*2)).

(** [df[name].sum()] *)
Definition column_total (df : frame) (name : string) : result Z :=
  a ← getitem df name;
  v ← as_numeric a;
  mret (isum v).

(** [df['quantity'] * df['cost_price']], row by row *)
Definition stock_values (df : frame) : result (list Z) :=
  q ← getitem df "quantity";
  qs ← as_numeric q;
  c ← getitem df "cost_price";
  cs ← as_numeric c;
  mret (zip_with (λ q c, wrap64 (q * c)) qs cs).

(** [df.groupby([..., 'product']).apply(lambda x: (x['quantity'] *
    x['cost_price']).sum()).unstack(fill_value=0)] *)
Definition monthly_stock_value (df : frame) : result pivot :=
  keys ← groupby_month df "product";
  v ← stock_values df;
  let rows := dropna keys v in
  mret (unstack 0 (groupby_sum rows.*1 rows.*2)).

Definition process_data (income_df expense_df inventory_df cash_flow_df : loc)
  : M heap financial_data :=
  (* Process income data *)
  df ← read_frame income_df;
  p ← lift (monthly_sum df "category" "amount");
  monthly_income ← new (Pivot p);
  df ← read_frame income_df;
  total_income ← lift (column_total df "amount");
  (* Process expense data *)
  df ← read_frame expense_df;
  p ← lift (monthly_sum df "category" "amount");
  monthly_expenses ← new (Pivot p);
  df ← read_frame expense_df;
  total_expenses ← lift (column_total df "amount");
  (* Calculate P&L *)
  mi ← read_pivot monthly_income;
  me ← read_pivot monthly_expenses;
  monthly_pnl ← new (SeriesObj (series_sub (sum_axis1 mi) (sum_axis1 me)));
  (* Process inventory data *)
  df ← read_frame inventory_df;
  p ← lift (monthly_stock_value df);
  monthly_inventory_value ← new (Pivot p);
  df ← read_frame inventory_df;
  v ← lift (stock_values df);
  let total_inventory_value := isum v in
  (* Process cash flow data *)
  df ← read_frame cash_flow_df;
  p ← lift (monthly_sum df "type" "amount");
  monthly_cash_flow ← new (Pivot p);
  p ← read_pivot monthly_cash_flow;
  inflow ← lift (pivot_getitem p (Str "Inflow"));
  p ← read_pivot monthly_cash_flow;
  outflow ← lift (pivot_getitem p (Str "Outflow"));
  p ← read_pivot monthly_cash_flow;
  _ ← write monthly_cash_flow
        (Pivot (pivot_setitem p (Str "Net") (series_sub inflow outflow)));
  mret {| monthly_income := monthly_income;
          total_income := total_income;
          monthly_expenses := monthly_expenses;
          total_expenses := total_expenses;
          monthly_pnl := monthly_pnl;
          monthly_inventory_value := monthly_inventory_value;
          total_inventory_value := total_inventory_value;
          monthly_cash_flow := monthly_cash_flow |}.

(** ** The four tables of the data model, as records and as frames *)

Record transaction := Transaction {
  t_date : date; t_category : string; t_amount : Z }.

Record stock := Stock {
  s_date : date; s_product : string; s_quantity : Z;
  s_cost_price : Z; s_selling_price : Z }.

Record cash_flow := CashFlow {
  f_date : date; f_type : string; f_category : string; f_amount : Z }.

Definition transactions_frame (t : list transaction) : frame :=
  [ ("date", Datetime (Some ∘ t_date <$> t));
    ("category", Object (Some ∘ t_category <$> t));
    ("amount", Int64 (t_amount <$> t)) ].

Definition inventory_frame (t : list stock) : frame :=
  [ ("date", Datetime (Some ∘ s_date <$> t));
    ("product", Object (Some ∘ s_product <$> t));
    ("quantity", Int64 (s_quantity <$> t));
    ("cost_price", Int64 (s_cost_price <$> t));
    ("selling_price", Int64 (s_selling_price <$> t)) ].

Definition cash_flow_frame (t : list cash_flow) : frame :=
  [ ("date", Datetime (Some ∘ f_date <$> t));
    ("type", Object (Some ∘ f_type <$> t));
    ("category", Object (Some ∘ f_category <$> t));
    ("amount", Int64 (f_amount <$> t)) ].

(** ** The upload path of [main] *)

(** What [pd.read_csv] / [pd.read_excel] makes of an uploaded file. *)
Inductive upload :=
| Unreadable                 (* the reader raises *)
| Parsed (df : frame).

(** How far one run of [main] gets. *)
Inductive outcome :=
| Warning                    (* "Please upload all required data files" *)
| ReadError                  (* "Error reading files: ..." *)
| Waiting                    (* files loaded, "Generate Report" not pressed *)
| Processed (r : result financial_data * heap).   (* [process_data] was called *)

(** [df[name] = c] on an input frame *)
Fixpoint set_column (df : frame) (name : string) (c : column) : frame :=
  match df with
  | [] => [(name, c)]
  | (n, c') :: t =>
      if decide (name = n) then (n, c) :: t else (n, c') :: set_column t name c
  end.

Section Main.
(** [pd.to_datetime] on one text cell ([None]: it raises) and on one
    integer cell (nanoseconds since the epoch). *)
Variable parse_date : string → option date.
Variable from_epoch : Z → date.

(** A missing cell becomes NaT. *)
Definition parse_cell (c : option string) : option (option date) :=
  match c with
  | None => Some None
  | Some s => Some <$> parse_date s
  end.

(** [pd.to_datetime] on a column.  A parsed cell is a calendar date without
    a time zone; text with time-zone offsets, which pandas can leave as an
    object column, is outside this model. *)
Definition to_datetime (c : column) : option column :=
  match c with
  | Datetime v => Some (Datetime v)
  | Object v => Datetime <$> mapM parse_cell v
  | Int64 v => Some (Datetime (Some ∘ from_epoch <$> v))
  end.

(** [if 'date' in df.columns: df['date'] = pd.to_datetime(df['date'])] *)
Definition convert_dates (df : frame) : option frame :=
  match assoc "date" df with
  | None => Some df
  | Some c => c' ← to_datetime c; Some (set_column df "date" c')
  end.

Definition read_file (u : upload) : option frame :=
  match u with
  | Unreadable => None
  | Parsed df => Some df
  end.

(** The [try] block of [main]: read the four files, then convert the date
    columns. *)
Definition load_files (income_file expense_file inventory_file cash_flow_file : upload)
  : option (frame * frame * frame * frame) :=
  income_df ← read_file income_file;
  expense_df ← read_file expense_file;
  inventory_df ← read_file inventory_file;
  cash_flow_df ← read_file cash_flow_file;
  income_df ← convert_dates income_df;
  expense_df ← convert_dates expense_df;
  inventory_df ← convert_dates inventory_df;
  cash_flow_df ← convert_dates cash_flow_df;
  Some (income_df, expense_df, inventory_df, cash_flow_df).

(** [main] without sample data, up to the call of [process_data]. *)
Definition main (income_file expense_file inventory_file cash_flow_file : option upload)
  (generate_report : bool) : outcome :=
  match income_file, expense_file, inventory_file, cash_flow_file with
  | Some i, Some e, Some v, Some c =>
      match load_files i e v c with
      | None => ReadError
      | Some (income_df, expense_df, inventory_df, cash_flow_df) =>
          if generate_report then
            Processed
              (process_data 0%nat 1%nat 2%nat 3%nat
                 [Frame income_df; Frame expense_df;
                  Frame inventory_df; Frame cash_flow_df])
          else Waiting
      end
  | _, _, _, _ => Warning
  end.
End Main.

(** ** The exporters *)

(** A chart artifact of [generate_charts]. *)
Inductive figure := Figure (title : string).

(** A value of the [data] dict handed to the exporters. *)
Inductive datum :=
| Number (z : Z)
| Table (p : pivot)
| Monthly (s : Series).

(** What an exporter puts into its file, piece by piece. *)
Inductive part :=
| TitlePage
| FigurePage (f : figure)
| SummaryPage (total_income total_expenses net_profit total_inventory_value : Z)
| SummarySheet (total_income total_expenses net_profit total_inventory_value : Z)
| TableSheet (name : string) (p : pivot)
| SeriesSheet (name : string) (s : Series)
| SheetChart (kind anchor : string) (series : nat).

(** A file: its parts so far, and whether the writer has finalised it. *)
Record file := File { parts : list part; closed : bool }.

Abbreviation disk := (gmap string file) (only parsing).

(** [d[k]] on a dict *)
Definition dict_get {V S : Type} (d : gmap string V) (k : string) : M S V := λ s,
  match d !! k with
  | Some v => (Ok v, s)
  | None => (Raise (KeyError (Str k)), s)
  end.

(** [f"{v:,.2f}"]: a dict value formatted as a number; a table or a Series
    does not take this format. *)
Definition number {S : Type} (d : datum) : M S Z :=
  lift (match d with Number z => Ok z | _ => Raise TypeError end).

(** [pdf.savefig(fig)]: one more page goes into the file at [filename]. *)
Definition emit (filename : string) (p : part) : M disk unit := λ s,
  (Ok tt, alter (λ f, File (parts f ++ [p]) (closed f)) filename s).

(** [with PdfPages(filename) as pdf: body].  The file is created at the
    target path; when the block is left, normally or by an exception, the
    document is closed, which finalises the file, and the exception goes
    on. *)
Definition with_pdf_pages (filename : string) (body : M disk unit)
  : M disk unit := λ s,
  let '(r, s') := body (<[filename := File [] false]> s) in
  (r, alter (λ f, File (parts f) true) filename s').

Definition generate_pdf_report (data : gmap string datum) (charts : gmap string figure)
  (filename : string) : M disk unit :=
  with_pdf_pages filename (
    (* Title page *)
    _ ← emit filename TitlePage;
    (* Income by category *)
    fig ← dict_get charts "income_by_category";
    _ ← emit filename (FigurePage fig);
    (* Expenses by category *)
    fig ← dict_get charts "expenses_by_category";
    _ ← emit filename (FigurePage fig);
    (* P&L over time *)
    fig ← dict_get charts "pnl_over_time";
    _ ← emit filename (FigurePage fig);
    (* Inventory value by product *)
    fig ← dict_get charts "inventory_by_product";
    _ ← emit filename (FigurePage fig);
    (* Cash flow *)
    fig ← dict_get charts "cash_flow";
    _ ← emit filename (FigurePage fig);
    (* Summary page *)
    ti ← dict_get data "total_income" ≫= number;
    te ← dict_get data "total_expenses" ≫= number;
    tiv ← dict_get data "total_inventory_value" ≫= number;
    emit filename (SummaryPage ti te (wrap64 (ti - te)) tiv)).

(** The pandas calls that [generate_excel_report] makes on the values of the
    dict.  The model does not look into them: each gives a sheet (or a
    number) or raises. *)
Record pandas := Pandas {
  (* [a - b] *)
  minus : datum → datum → result datum;
  (* [pd.DataFrame({'Metric': [...], 'Amount': [a, b, c, d]}).to_excel(writer,
     sheet_name='Summary', index=False)] *)
  summary_to_excel : datum → datum → datum → datum → result part;
  (* [v.to_excel(writer, sheet_name=name)] *)
  to_excel : string → datum → result part;
  (* [v.reset_index()], the two column names, [to_excel(..., 'P&L')] *)
  pnl_to_excel : datum → result part;
  (* [len(v.columns)] *)
  n_columns : datum → result nat
}.

(** What they do on values of the kinds that [process_data] returns: int64
    totals, tables and a Series, with dates that carry no time zone. *)
Definition well_known (pd : pandas) : Prop :=
  (∀ a b, minus pd (Number a) (Number b) = Ok (Number (wrap64 (a - b))))
  ∧ (∀ a b c d, summary_to_excel pd (Number a) (Number b) (Number c) (Number d)
                = Ok (SummarySheet a b c d))
  ∧ (∀ name p, to_excel pd name (Table p) = Ok (TableSheet name p))
  ∧ (∀ s, pnl_to_excel pd (Monthly s) = Ok (SeriesSheet "P&L" s))
  ∧ (∀ p, n_columns pd (Table p) = Ok (length (columns p))).

(** A sheet or a chart goes into the workbook, which is held in memory. *)
Definition write_sheet (p : part) : M (list part) unit := λ book,
  (Ok tt, book ++ [p]).

(** xlsxwriter refuses to close a workbook that has a chart without a data
    series. *)
Definition has_series (p : part) : bool :=
  match p with
  | SheetChart _ _ O => false
  | _ => true
  end.

Definition close_workbook (book : list part) : result unit :=
  if forallb has_series book then Ok tt else Raise EmptyChartSeries.

(** [with pd.ExcelWriter(filename, engine='xlsxwriter') as writer: body].
    The writer opens the target path for writing, which empties it.  The
    sheets are collected in memory.  When the block is left, normally or by
    an exception, the workbook is closed: it is written to the file as it is
    then, and the exception of the body goes on.  When the closing itself
    raises, nothing is written and that exception goes on. *)
Definition with_excel_writer (filename : string) (body : M (list part) unit)
  : M disk unit := λ s,
  let '(r, book) := body [] in
  match close_workbook book with
  | Ok _ => (r, <[filename := File book true]> s)
  | Raise e => (Raise e, <[filename := File [] false]> s)
  end.

Definition generate_excel_report (pd : pandas) (data : gmap string datum)
  (filename : string) : M disk unit :=
  with_excel_writer filename (
    (* Write summary sheet *)
    ti ← dict_get data "total_income";
    te ← dict_get data "total_expenses";
    net ← lift (minus pd ti te);
    tiv ← dict_get data "total_inventory_value";
    sheet ← lift (summary_to_excel pd ti te net tiv);
    _ ← write_sheet sheet;
    (* Write income sheet *)
    mi ← dict_get data "monthly_income";
    sheet ← lift (to_excel pd "Income" mi);
    _ ← write_sheet sheet;
    (* Write expenses sheet *)
    me ← dict_get data "monthly_expenses";
    sheet ← lift (to_excel pd "Expenses" me);
    _ ← write_sheet sheet;
    (* Write P&L sheet *)
    pnl ← dict_get data "monthly_pnl";
    sheet ← lift (pnl_to_excel pd pnl);
    _ ← write_sheet sheet;
    (* Write inventory sheet *)
    mv ← dict_get data "monthly_inventory_value";
    sheet ← lift (to_excel pd "Inventory" mv);
    _ ← write_sheet sheet;
    (* Write cash flow sheet *)
    cf ← dict_get data "monthly_cash_flow";
    sheet ← lift (to_excel pd "Cash Flow" cf);
    _ ← write_sheet sheet;
    (* Add P&L chart *)
    _ ← write_sheet (SheetChart "line" "D2" 1);
    (* Add income chart *)
    mi ← dict_get data "monthly_income";
    n ← lift (n_columns pd mi);
    write_sheet (SheetChart "column" "D18" n)).

(** The export step of [main]: the two export calls, one after the
    other. *)
Definition export_reports (pd : pandas) (data : gmap string datum)
    (charts : gmap string figure) (temp_excel temp_pdf : string)
  : M disk unit :=
  _ ← generate_excel_report pd data temp_excel;
  generate_pdf_report data charts temp_pdf.

(** [open(path, "rb").read()] *)
Definition read_bytes (path : string) : M disk file := λ s,
  match s !! path with
  | Some f => (Ok f, s)
  | None => (Raise FileNotFoundError, s)
  end.

(** The exports and the two reads that feed the download links. *)
Definition download_links (pd : pandas) (data : gmap string datum)
    (charts : gmap string figure) (temp_excel temp_pdf : string)
  : M disk (file * file) :=
  _ ← export_reports pd data charts temp_excel temp_pdf;
  excel_data ← read_bytes temp_excel;
  pdf_data ← read_bytes temp_pdf;
  mret (excel_data, pdf_data).

(** ** The pure content of one call of [process_data] *)

#[global] Instance result_fmap : FMap result := λ A B f m,
  match m with Ok a => Ok (f a) | Raise e => Raise e end.

(** The tables and totals computed by one call, in the order of the
    statements of [process_data]. *)
Record tables := {
  income_pivot : pivot;
  income_total : Z;
  expense_pivot : pivot;
  expense_total : Z;
  inventory_pivot : pivot;
  inventory_total : Z;
  cash_pivot : pivot;             (* before the Net column is set *)
  inflow : Series;
  outflow : Series
}.

Definition summaries (fi fe fv fc : frame) : result tables :=
  mi ← monthly_sum fi "category" "amount";
  ti ← column_total fi "amount";
  me ← monthly_sum fe "category" "amount";
  te ← column_total fe "amount";
  mv ← monthly_stock_value fv;
  sv ← stock_values fv;
  mcf ← monthly_sum fc "type" "amount";
  i ← pivot_getitem mcf (Str "Inflow");
  o ← pivot_getitem mcf (Str "Outflow");
  mret {| income_pivot := mi; income_total := ti;
          expense_pivot := me; expense_total := te;
          inventory_pivot := mv; inventory_total := isum sv;
          cash_pivot := mcf; inflow := i; outflow := o |}.

Definition pnl_of (t : tables) : Series :=
  series_sub (sum_axis1 (income_pivot t)) (sum_axis1 (expense_pivot t)).

Definition cash_flow_of (t : tables) : pivot :=
  pivot_setitem (cash_pivot t) (Str "Net") (series_sub (inflow t) (outflow t)).

(** The objects a successful call allocates, in order of allocation. *)
Definition objects_of (t : tables) : list object :=
  [ Pivot (income_pivot t); Pivot (expense_pivot t); SeriesObj (pnl_of t);
    Pivot (inventory_pivot t); Pivot (cash_flow_of t) ].

(** The returned dict when the first new object is allocated at [n]. *)
Definition refs_of (n : nat) (t : tables) : financial_data :=
  {| monthly_income := (n + 0)%nat;
     total_income := income_total t;
     monthly_expenses := (n + 1)%nat;
     total_expenses := expense_total t;
     monthly_pnl := (n + 2)%nat;
     monthly_inventory_value := (n + 3)%nat;
     total_inventory_value := inventory_total t;
     monthly_cash_flow := (n + 4)%nat |}.

(** Sum of all cells of a table: exactly, and added up in int64. *)
Definition cells_total (p : pivot) : Z :=
  Zsum ((λ r, Zsum (skipna <$> r.2)) <$> rows p).

Definition cells_sum (p : pivot) : Z := wrap64 (cells_total p).

(** The shape of every table that [unstack] builds. *)
Definition tabulate (cols : list label) (idx : list period)
    (g : period → label → Z) : pivot :=
  {| columns := cols;
     rows := (λ m, (m, (λ c, Val (g m c)) <$> cols)) <$> idx |}.

(** Every row has one cell per column. *)
Definition pivot_wf (p : pivot) : Prop :=
  ∀ r, r ∈ rows p → length r.2 = length (columns p).

(** The amounts of the rows of one group, added up. *)
Definition group_total (rows : list (key * Z)) (k : key) : Z :=
  Zsum ((filter (λ r, r.1 = k) rows).*2).

(** The group of a row of each table. *)
Definition transaction_key (t : transaction) : key :=
  (month_of (t_date t), Str (t_category t)).

Definition stock_key (t : stock) : key :=
  (month_of (s_date t), Str (s_product t)).

Definition stock_value (t : stock) : Z :=
  wrap64 (s_quantity t * s_cost_price t).

Definition cash_flow_key (t : cash_flow) : key :=
  (month_of (f_date t), Str (f_type t)).

(** [monthly_sum] on a table of the data model. *)
Definition pivot_of {A : Type} (k : A → key) (v : A → Z) (t : list A) : pivot :=
  unstack 0 (groupby_sum (k <$> t) (v <$> t)).

(** The Inflow or Outflow column of the cash-flow table, as a Series. *)
Definition flow_series (cash : list cash_flow) (ty : string) : Series :=
  (λ m, (m, Val (wrap64
                   (group_total ((λ x, (cash_flow_key x, f_amount x)) <$> cash)
                                (m, Str ty)))))
    <$> index (pivot_of cash_flow_key f_amount cash).

(** What [summaries] computes from four tables of the data model. *)
Definition tables_of (income expenses : list transaction)
    (inventory : list stock) (cash : list cash_flow) : tables :=
  {| income_pivot := pivot_of transaction_key t_amount income;
     income_total := isum (t_amount <$> income);
     expense_pivot := pivot_of transaction_key t_amount expenses;
     expense_total := isum (t_amount <$> expenses);
     inventory_pivot := pivot_of stock_key stock_value inventory;
     inventory_total := isum (stock_value <$> inventory);
     cash_pivot := pivot_of cash_flow_key f_amount cash;
     inflow := flow_series cash "Inflow";
     outflow := flow_series cash "Outflow" |}.

(** A table is zero-filled over the records [t]: every month of its index
    has an explicit cell for every observed label, and the cell is 0 when no
    record has that month and label. *)
Definition zero_filled {A : Type} (p : pivot) (k : A → key) (t : list A)
  : Prop :=
  ∀ m c, m ∈ index p → (∃ x, x ∈ t ∧ (k x).2 = c) →
    ∃ v, at_ p m c = Some (Val v) ∧ ((∀ x, x ∈ t → k x ≠ (m, c)) → v = 0).

(** The flow types of the data model. *)
Definition flow_types (cash : list cash_flow) : Prop :=
  ∀ x, x ∈ cash → f_type x = "Inflow" ∨ f_type x = "Outflow".

(** An inventory table with zero rows: the columns are there, and empty.
    The date column holds datetimes, as [main] leaves it, also for a file
    with only its header line. *)
Definition empty_numeric (c : column) : Prop := c = Int64 [] ∨ c = Object [].

Definition empty_inventory (df : frame) : Prop :=
  assoc "date" df = Some (Datetime [])
  ∧ is_Some (assoc "product" df)
  ∧ (∃ c, assoc "quantity" df = Some c ∧ empty_numeric c)
  ∧ (∃ c, assoc "cost_price" df = Some c ∧ empty_numeric c).

(** An upload that the [try] block of [main] rejects: the reader raises, or
    the frame has a text date column with a cell that [pd.to_datetime]
    cannot parse. *)
Definition unparseable (parse_date : string → option date) (df : frame) : Prop :=
  ∃ v s, assoc "date" df = Some (Object v) ∧ Some s ∈ v ∧ parse_date s = None.

Definition rejected (parse_date : string → option date) (u : upload) : Prop :=
  match u with
  | Unreadable => True
  | Parsed df => unparseable parse_date df
  end.

(** ** The returned dict as the exporters read it *)



(** The keys that the exporters read. *)
Definition chart_keys : list string :=
  ["income_by_category"; "expenses_by_category"; "pnl_over_time";
   "inventory_by_product"; "cash_flow"].

Definition total_keys : list string :=
  ["total_income"; "total_expenses"; "total_inventory_value"].

Definition table_keys : list string :=
  ["monthly_income"; "monthly_expenses"; "monthly_inventory_value";
   "monthly_cash_flow"].

(** The keys of the data dict in the order in which the Excel exporter
    first reads them. *)
Definition excel_keys : list string :=
  ["total_income"; "total_expenses"; "total_inventory_value";
   "monthly_income"; "monthly_expenses"; "monthly_pnl";
   "monthly_inventory_value"; "monthly_cash_flow"].

(** The values found under the keys [ks], in order, up to the first key
    that is missing. *)
Fixpoint found {V : Type} (d : gmap string V) (ks : list string) : list V :=
  match ks with
  | [] => []
  | k :: ks =>
      match d !! k with
      | Some v => v :: found d ks
      | None => []
      end
  end.

(** A complete data dict and a complete chart dict, and the two files that
    a complete export makes of them. *)
Definition complete_data (ti te tiv : Z) (mi me mv cf : pivot) (pnl : Series)
  : gmap string datum :=
  list_to_map
    [ ("monthly_income", Table mi); ("total_income", Number ti);
      ("monthly_expenses", Table me); ("total_expenses", Number te);
      ("monthly_pnl", Monthly pnl); ("monthly_inventory_value", Table mv);
      ("total_inventory_value", Number tiv); ("monthly_cash_flow", Table cf) ].

Definition complete_charts (f1 f2 f3 f4 f5 : figure) : gmap string figure :=
  list_to_map
    [ ("income_by_category", f1); ("expenses_by_category", f2);
      ("pnl_over_time", f3); ("inventory_by_product", f4);
      ("cash_flow", f5) ].

Definition pdf_document (f1 f2 f3 f4 f5 : figure) (ti te tiv : Z)
  : list part :=
  [ TitlePage; FigurePage f1; FigurePage f2; FigurePage f3; FigurePage f4;
    FigurePage f5; SummaryPage ti te (wrap64 (ti - te)) tiv ].

Definition workbook (ti te tiv : Z) (mi me mv cf : pivot) (pnl : Series)
  : list part :=
  [ SummarySheet ti te (wrap64 (ti - te)) tiv;
    TableSheet "Income" mi; TableSheet "Expenses" me; SeriesSheet "P&L" pnl;
    TableSheet "Inventory" mv; TableSheet "Cash Flow" cf;
    SheetChart "line" "D2" 1;
    SheetChart "column" "D18" (length (columns mi)) ].


(** ** Example data *)

(** A stand-in for [pd.to_datetime] on one cell in the examples: it reads
    the ISO form YYYY-MM-DD and rejects everything else. *)
Definition digit (a : ascii) : option Z :=
  let n := Z.of_nat (nat_of_ascii a) - 48 in
  if (0 <=? n) && (n <=? 9) then Some n else None.

Definition parse_iso (s : string) : option date :=
  match s with
  | String y1 (String y2 (String y3 (String y4 (String "-"%char
      (String m1 (String m2 (String "-"%char
        (String d1 (String d2 EmptyString))))))))) =>
      y1 ← digit y1; y2 ← digit y2; y3 ← digit y3; y4 ← digit y4;
      m1 ← digit m1; m2 ← digit m2; d1 ← digit d1; d2 ← digit d2;
      Some (Date (1000 * y1 + 100 * y2 + 10 * y3 + y4)
                 (10 * m1 + m2) (10 * d1 + d2))
  | _ => None
  end.

(** In the examples no date column is numeric. *)
Definition epoch_start (ns : Z) : date := Date 1970 1 1.

Definition ex_income : list transaction :=
  [ Transaction (Date 2023 3 15) "Product Sales" 1000;
    Transaction (Date 2023 1 15) "Service Fees" 10;
    Transaction (Date 2023 3 16) "Service Fees" 7;
    Transaction (Date 2023 3 18) "Service Fees" 5 ].

Definition ex_expenses : list transaction :=
  [ Transaction (Date 2023 3 15) "Rent" 400;
    Transaction (Date 2023 1 20) "Rent" 400;
    Transaction (Date 2023 1 21) "Utilities" 30 ].

Definition ex_inventory : list stock :=
  [ Stock (Date 2023 3 15) "Product A" 2 5 9;
    Stock (Date 2023 1 15) "Product B" 3 7 12 ].

Definition ex_cash : list cash_flow :=
  [ CashFlow (Date 2023 3 15) "Inflow" "Product Sales" 50;
    CashFlow (Date 2023 3 15) "Outflow" "Rent" 20;
    CashFlow (Date 2023 1 15) "Inflow" "Investments" 8 ].

Definition store_of (income expenses : list transaction)
    (inventory : list stock) (cash : list cash_flow) : heap :=
  [ Frame (transactions_frame income); Frame (transactions_frame expenses);
    Frame (inventory_frame inventory); Frame (cash_flow_frame cash) ].

Definition ex_store : heap := store_of ex_income ex_expenses ex_inventory ex_cash.

Definition ex_report : financial_data :=
  {| monthly_income := 4; total_income := 1022;
     monthly_expenses := 5; total_expenses := 830;
     monthly_pnl := 6;
     monthly_inventory_value := 7; total_inventory_value := 31;
     monthly_cash_flow := 8 |}.

Definition ex_store' : heap :=
  Eval vm_compute in (process_data 0%nat 1%nat 2%nat 3%nat ex_store).2.

(** Income in January only, expenses in February only. *)
Definition one_sided_income : list transaction :=
  [ Transaction (Date 2023 1 15) "Product Sales" 1000 ].

Definition one_sided_expenses : list transaction :=
  [ Transaction (Date 2023 2 10) "Rent" 400 ].

Definition one_sided_store : heap :=
  store_of one_sided_income one_sided_expenses ex_inventory ex_cash.

Definition one_sided_report : financial_data :=
  {| monthly_income := 4; total_income := 1000;
     monthly_expenses := 5; total_expenses := 400;
     monthly_pnl := 6;
     monthly_inventory_value := 7; total_inventory_value := 31;
     monthly_cash_flow := 8 |}.

(** A cash-flow table without any Outflow row. *)
Definition inflow_only : list cash_flow :=
  [ CashFlow (Date 2023 3 15) "Inflow" "Product Sales" 50 ].

(** A text column without missing cells. *)
Definition text (v : list string) : column := Object (Some <$> v).

(** Frames as [pd.read_csv] returns them: dates are still text. *)
Definition csv_income : frame :=
  [ ("date", text ["2023-03-15"]); ("category", text ["Product Sales"]);
    ("amount", Int64 [1000]) ].

Definition csv_expenses : frame :=
  [ ("date", text ["2023-03-15"]); ("category", text ["Rent"]);
    ("amount", Int64 [400]) ].

Definition csv_inventory : frame :=
  [ ("date", text ["2023-03-15"]); ("product", text ["Product A"]);
    ("quantity", Int64 [2]); ("cost_price", Int64 [5]);
    ("selling_price", Int64 [9]) ].

Definition csv_cash : frame :=
  [ ("date", text ["2023-03-15"; "2023-03-16"]);
    ("type", text ["Inflow"; "Outflow"]);
    ("category", text ["Product Sales"; "Rent"]);
    ("amount", Int64 [50; 20]) ].

(** A file with its header line and no rows. *)
Definition csv_header_only : frame :=
  [ ("date", text []); ("category", text []); ("amount", text []) ].

(** A file without the amount column. *)
Definition csv_no_amount : frame :=
  [ ("date", text ["2023-03-15"]); ("category", text ["Product Sales"]) ].

(** A file with a date that cannot be parsed. *)
Definition csv_bad_date : frame :=
  [ ("date", text ["2023-03-15"; "yesterday"]);
    ("category", text ["Rent"; "Rent"]); ("amount", Int64 [400; 1]) ].


(** The dict of [generate_charts] with the P&L chart missing. *)
Definition charts_without_pnl : gmap string figure :=
  list_to_map
    [ ("income_by_category", Figure "Monthly Income by Category");
      ("expenses_by_category", Figure "Monthly Expenses by Category");
      ("inventory_by_product", Figure "Monthly Inventory Value by Product");
      ("cash_flow", Figure "Monthly Cash Flow") ].

(** A [data] dict that lacks the income table. *)
Definition data_without_income : gmap string datum :=
  list_to_map
    [ ("total_income", Number 1000); ("total_expenses", Number 400);
      ("total_inventory_value", Number 10) ].

(** The complete report of an earlier run, at the target path. *)
Definition earlier_report : file :=
  File [ TitlePage; FigurePage (Figure "a"); FigurePage (Figure "b");
         FigurePage (Figure "c"); FigurePage (Figure "d");
         FigurePage (Figure "e"); SummaryPage 1 1 0 1 ] true.

(** The dict of [generate_charts]. *)
Definition ex_charts : gmap string figure :=
  list_to_map
    [ ("income_by_category", Figure "Monthly Income by Category");
      ("expenses_by_category", Figure "Monthly Expenses by Category");
      ("pnl_over_time", Figure "Monthly Profit & Loss");
      ("inventory_by_product", Figure "Monthly Inventory Value by Product");
      ("cash_flow", Figure "Monthly Cash Flow") ].

(** An income table, dates converted, without the amount column. *)
Definition income_without_amount : frame :=
  [ ("date", Datetime [Some (Date 2023 3 15)]);
    ("category", text ["Product Sales"]) ].

(** A stand-in for the pandas calls of the Excel exporter in the examples:
    as [well_known] has them on numbers, tables and Series, and raising
    otherwise. *)
Definition ex_pandas : pandas :=
  {| minus a b :=
       match a, b with
       | Number x, Number y => Ok (Number (wrap64 (x - y)))
       | _, _ => Raise TypeError
       end;
     summary_to_excel a b c d :=
       match a, b, c, d with
       | Number x, Number y, Number z, Number w => Ok (SummarySheet x y z w)
       | _, _, _, _ => Raise TypeError
       end;
     to_excel name v :=
       match v with
       | Table p => Ok (TableSheet name p)
       | _ => Raise TypeError
       end;
     pnl_to_excel v :=
       match v with
       | Monthly s => Ok (SeriesSheet "P&L" s)
       | _ => Raise TypeError
       end;
     n_columns v :=
       match v with
       | Table p => Ok (length (columns p))
       | _ => Raise TypeError
       end |}.

(** A table as the [try] block of [main] leaves it in the examples. *)
Definition loaded (df : frame) : frame :=
  default df (convert_dates parse_iso epoch_start df).

(** ** The orders behind the sorted keys *)

Definition period_le (a b : period) : Prop := period_leb a b = true.
Definition label_le (a b : label) : Prop := label_leb a b = true.
Definition key_le (a b : key) : Prop := key_leb a b = true.

(** A table is keyed by the records [t]: its months and its columns are the
    months and labels that occur in [t], each once, in ascending order. *)
Definition keyed_by {A : Type} (p : pivot) (k : A → key) (t : list A) : Prop :=
  (∀ m, m ∈ index p ↔ ∃ x, x ∈ t ∧ (k x).1 = m)
  ∧ (∀ c, c ∈ columns p ↔ ∃ x, x ∈ t ∧ (k x).2 = c)
  ∧ NoDup (index p) ∧ NoDup (columns p)
  ∧ StronglySorted period_le (index p)
  ∧ StronglySorted label_le (columns p).

(** The amounts of the records of one month and label, added up. *)
Definition group_sum {A : Type} (k : A → key) (v : A → Z) (t : list A)
    (m : period) (c : label) : Z :=
  Zsum (v <$> filter (λ x, k x = (m, c)) t).

(** Every cell of the table is the int64 sum of its group. *)
Definition sums_groups {A : Type} (p : pivot) (k : A → key) (v : A → Z)
    (t : list A) : Prop :=
  ∀ m c, m ∈ index p → c ∈ columns p →
    at_ p m c = Some (Val (wrap64 (group_sum k v t m c))).

(** One entry of [monthly_pnl], from the exact income [i] and expenses [e] of
    the month: computed in int64 when the income and the expense table have
    the same months, and in float64, after alignment, when they differ. *)
Definition pnl_entry (aligned : bool) (i e : Z) : Z :=
  if aligned then wrap64 (i - e)
  else float64 (float64 (wrap64 i) - float64 (wrap64 e)).

(** * Properties *)

(** ** Sorting keeps the elements *)

Section SortingFacts.
Context {A : Type} (leb : A → A → bool).

Lemma insert_sorted_perm x l : insert_sorted leb x l ≡ₚ x :: l.
Proof.
  induction l as [|y t IH]; simpl; [done|].
  destruct (leb x y); [done|].
  rewrite IH. apply Permutation_swap.
Qed.

Lemma sort_perm l : sort leb l ≡ₚ l.
Proof.
  induction l as [|x t IH]; simpl; [done|].
  by rewrite insert_sorted_perm, IH.
Qed.

Context `{EqDecision A}.

Lemma elem_of_unique_sorted x l : x ∈ unique_sorted leb l ↔ x ∈ l.
Proof. unfold unique_sorted. by rewrite sort_perm, elem_of_remove_dups. Qed.

Lemma NoDup_unique_sorted l : NoDup (unique_sorted leb l).
Proof. unfold unique_sorted. rewrite sort_perm. apply NoDup_remove_dups. Qed.
End SortingFacts.

(** ** Association lists and positions *)

Section Lookups.
Context {K V : Type} `{EqDecision K}.

Lemma assoc_tabulate (f : K → V) (k : K) (l : list K) :
  assoc k ((λ x, (x, f x)) <$> l) = if decide (k ∈ l) then Some (f k) else None.
Proof.
  induction l as [|y t IH]; csimpl.
  - destruct (decide (k ∈ [])) as [Hin|]; [|done].
    by apply not_elem_of_nil in Hin.
  - destruct (decide (k = y)) as [->|Hne].
    + destruct (decide (y ∈ y :: t)) as [|Hout]; [done|].
      destruct Hout. apply list_elem_of_here.
    + rewrite IH.
      destruct (decide (k ∈ t)) as [Hin|Hout],
               (decide (k ∈ y :: t)) as [Hin'|Hout']; try done.
      * destruct Hout'. by apply list_elem_of_further.
      * apply elem_of_cons in Hin' as [?|?]; done.
Qed.

Lemma assoc_fmap_row {W : Type} (g : K * V → W) (k : K) (l : list (K * V)) :
  assoc k ((λ r, (r.1, g r)) <$> l)
  = match assoc k l with
    | Some v => Some (g (k, v))
    | None => None
    end.
Proof.
  induction l as [|[y v] t IH]; csimpl; [done|].
  destruct (decide (k = y)) as [->|Hne]; [done|apply IH].
Qed.

Lemma assoc_Some_elem (k : K) (v : V) (l : list (K * V)) :
  assoc k l = Some v → (k, v) ∈ l.
Proof.
  induction l as [|[y w] t IH]; csimpl; [done|].
  destruct (decide (k = y)) as [->|Hne].
  - intros [= ->]. apply list_elem_of_here.
  - intros Ht. apply list_elem_of_further, IH, Ht.
Qed.

Lemma assoc_is_Some (k : K) (l : list (K * V)) :
  k ∈ l.*1 → is_Some (assoc k l).
Proof.
  induction l as [|[y w] t IH]; csimpl.
  - intros []%not_elem_of_nil.
  - destruct (decide (k = y)) as [->|Hne]; [by eexists|].
    intros [?|?]%elem_of_cons; [done|by apply IH].
Qed.

Lemma position_Some (x : K) (l : list K) :
  x ∈ l → ∃ i, position x l = Some i ∧ l !! i = Some x.
Proof.
  induction l as [|y t IH]; csimpl.
  - intros []%not_elem_of_nil.
  - destruct (decide (x = y)) as [->|Hne]; [by exists 0%nat|].
    intros [?|Hin]%elem_of_cons; [done|].
    destruct (IH Hin) as (i & -> & Hi). by exists (S i).
Qed.

Lemma position_lookup (x : K) (l : list K) (i : nat) :
  position x l = Some i → l !! i = Some x.
Proof.
  revert i. induction l as [|y t IH]; csimpl; intros i; [done|].
  destruct (decide (x = y)) as [->|Hne].
  - by intros [= <-].
  - destruct (position x t) as [j|]; csimpl; [|done].
    intros [= <-]. by apply IH.
Qed.

Lemma position_None (x : K) (l : list K) :
  position x l = None ↔ x ∉ l.
Proof.
  induction l as [|y t IH]; csimpl.
  - split; [intros _; apply not_elem_of_nil|done].
  - destruct (decide (x = y)) as [->|Hne].
    + split; [done|]. intros []. apply list_elem_of_here.
    + destruct (position x t) as [j|] eqn:E; csimpl.
      * split; [done|]. intros Hout. destruct IH as [_ IH].
        discriminate IH. intros Hin. apply Hout. by apply list_elem_of_further.
      * split; [|done]. intros _ [?|Hin]%elem_of_cons; [done|].
        by apply IH in Hin.
Qed.

Lemma position_app_l (x : K) (l k : list K) (i : nat) :
  position x l = Some i → position x (l ++ k) = Some i.
Proof.
  revert i. induction l as [|y t IH]; csimpl; intros i; [done|].
  destruct (decide (x = y)); [done|].
  destruct (position x t) as [j|]; csimpl; [|done].
  intros [= <-]. by rewrite (IH j).
Qed.

Lemma position_snoc (x : K) (l : list K) :
  position x l = None → position x (l ++ [x]) = Some (length l).
Proof.
  induction l as [|y t IH]; csimpl.
  - by rewrite decide_True.
  - destruct (decide (x = y)); [done|].
    destruct (position x t) as [j|]; csimpl; [done|].
    intros _. by rewrite IH.
Qed.

Lemma position_snoc_ne (x y : K) (l : list K) :
  x ≠ y → position x l = None → position x (l ++ [y]) = None.
Proof.
  intros Hne. induction l as [|z t IH]; csimpl.
  - by rewrite decide_False.
  - destruct (decide (x = z)); [done|].
    destruct (position x t) as [j|]; csimpl; [done|].
    intros _. by rewrite IH.
Qed.

Lemma position_inj (x y : K) (l : list K) (i : nat) :
  position x l = Some i → position y l = Some i → x = y.
Proof.
  intros Hx%position_lookup Hy%position_lookup. congruence.
Qed.
End Lookups.

(** ** Sums *)

Lemma Zsum_nil : Zsum [] = 0.
Proof. done. Qed.

Lemma Zsum_cons (x : Z) (l : list Z) : Zsum (x :: l) = x + Zsum l.
Proof. done. Qed.

Ltac zsum := csimpl; rewrite ?Zsum_nil, ?Zsum_cons in *.

Lemma Zsum_app (l k : list Z) : Zsum (l ++ k) = Zsum l + Zsum k.
Proof. induction l as [|x t IH]; zsum; lia. Qed.

Lemma Zsum_zero {A : Type} (l : list A) : Zsum ((λ _, 0) <$> l) = 0.
Proof. induction l as [|x t IH]; zsum; lia. Qed.

Lemma Zsum_plus {A : Type} (f g : A → Z) (l : list A) :
  Zsum ((λ x, f x + g x) <$> l) = Zsum (f <$> l) + Zsum (g <$> l).
Proof. induction l as [|x t IH]; zsum; lia. Qed.

Lemma Zsum_ext {A : Type} (f g : A → Z) (l : list A) :
  (∀ x, x ∈ l → f x = g x) → Zsum (f <$> l) = Zsum (g <$> l).
Proof.
  induction l as [|x t IH]; intros Hfg; zsum; [done|].
  rewrite (Hfg x) by apply list_elem_of_here.
  rewrite IH; [done|]. intros y Hy. by apply Hfg, list_elem_of_further.
Qed.

(** A value that sits at one key of a duplicate-free list is counted once. *)
Lemma Zsum_indicator {A : Type} `{EqDecision A} (a : A) (v : Z) (l : list A) :
  NoDup l →
  Zsum ((λ x, if decide (x = a) then v else 0) <$> l)
  = if decide (a ∈ l) then v else 0.
Proof.
  induction 1 as [|x t Hx Ht IH]; zsum.
  - destruct (decide (a ∈ [])) as [Hin|]; [|done].
    by apply not_elem_of_nil in Hin.
  - rewrite IH. destruct (decide (x = a)) as [->|Hne].
    + destruct (decide (a ∈ t)) as [|_]; [done|].
      destruct (decide (a ∈ a :: t)) as [|Hout]; [lia|].
      destruct Hout. apply list_elem_of_here.
    + destruct (decide (a ∈ t)) as [Hin|Hout],
               (decide (a ∈ x :: t)) as [Hin'|Hout']; try lia.
      * destruct Hout'. by apply list_elem_of_further.
      * apply elem_of_cons in Hin' as [?|?]; done.
Qed.

(** ** Arithmetic modulo 2^64 *)

Lemma wrap64_range (z : Z) : - 2 ^ 63 ≤ wrap64 z < 2 ^ 63.
Proof.
  unfold wrap64. pose proof (Z.mod_pos_bound (z + 2 ^ 63) (2 ^ 64) eq_refl).
  assert (2 ^ 64 = 2 * 2 ^ 63) as E by reflexivity.
  set (X := (z + 2 ^ 63) mod 2 ^ 64) in *. lia.
Qed.

Lemma wrap64_id (z : Z) : - 2 ^ 63 ≤ z < 2 ^ 63 → wrap64 z = z.
Proof.
  intros Hz. unfold wrap64.
  assert (2 ^ 64 = 2 * 2 ^ 63) as E by reflexivity.
  rewrite Z.mod_small by lia. lia.
Qed.

Lemma wrap64_idemp (z : Z) : wrap64 (wrap64 z) = wrap64 z.
Proof. apply wrap64_id, wrap64_range. Qed.

Lemma wrap64_add_l (a b : Z) : wrap64 (wrap64 a + b) = wrap64 (a + b).
Proof.
  unfold wrap64. f_equal.
  set (X := (a + 2 ^ 63) mod 2 ^ 64).
  replace (X - 2 ^ 63 + b + 2 ^ 63) with (X + b) by lia.
  unfold X. rewrite Z.add_mod_idemp_l by lia. f_equal. lia.
Qed.

Lemma wrap64_add_r (a b : Z) : wrap64 (a + wrap64 b) = wrap64 (a + b).
Proof. by rewrite Z.add_comm, wrap64_add_l, Z.add_comm. Qed.

Lemma wrap64_sub_l (a b : Z) : wrap64 (wrap64 a - b) = wrap64 (a - b).
Proof. unfold Z.sub. apply wrap64_add_l. Qed.

Lemma wrap64_sub_r (a b : Z) : wrap64 (a - wrap64 b) = wrap64 (a - b).
Proof.
  unfold wrap64. f_equal.
  assert (2 ^ 64 = 2 * 2 ^ 63) as E by reflexivity.
  set (X := (b + 2 ^ 63) mod 2 ^ 64).
  replace (a - (X - 2 ^ 63) + 2 ^ 63) with (a + 2 ^ 64 - X) by lia.
  unfold X. rewrite Zminus_mod_idemp_r. f_equal. lia.
Qed.

Lemma wrap64_sub (a b : Z) : wrap64 (wrap64 a - wrap64 b) = wrap64 (a - b).
Proof. by rewrite wrap64_sub_l, wrap64_sub_r. Qed.

(** Wrapping the terms of a sum does not change the wrapped sum. *)
Lemma isum_wrap {A : Type} (f : A → Z) (l : list A) :
  isum ((λ x, wrap64 (f x)) <$> l) = isum (f <$> l).
Proof.
  unfold isum. induction l as [|x l IH]; [done|].
  rewrite !fmap_cons, !Zsum_cons, wrap64_add_l.
  rewrite <- wrap64_add_r, IH. apply wrap64_add_r.
Qed.

Lemma isum_nil : isum [] = 0.
Proof. done. Qed.

(** ** The store: reads, allocations and the one update *)

Lemma read_frame_app (h ext : heap) (l : loc) (f : frame) :
  h !! l = Some (Frame f) → read_frame l (h ++ ext) = (Ok f, h ++ ext).
Proof.
  intros Hl. unfold read_frame. by rewrite (lookup_app_l_Some _ _ _ _ Hl).
Qed.

Lemma read_pivot_new (h ext : heap) (k : nat) (p : pivot) :
  ext !! k = Some (Pivot p) →
  read_pivot (length h + k)%nat (h ++ ext) = (Ok p, h ++ ext).
Proof.
  intros Hk. unfold read_pivot.
  rewrite lookup_app_r by lia.
  replace (length h + k - length h)%nat with k by lia. by rewrite Hk.
Qed.

Lemma new_app (h ext : heap) (o : object) :
  new o (h ++ ext) = (Ok (length h + length ext)%nat, h ++ (ext ++ [o])).
Proof. unfold new. by rewrite length_app, (assoc_L (++)). Qed.

Lemma write_new (h ext : heap) (k : nat) (o : object) :
  write (length h + k)%nat o (h ++ ext) = (Ok tt, h ++ <[k := o]> ext).
Proof. unfold write. by rewrite insert_app_r. Qed.

(** One statement of the body: the next operation of the chain is replaced
    by its value. *)
Ltac run_step :=
  first
    [ erewrite read_frame_app by eassumption
    | rewrite new_app
    | erewrite read_pivot_new by reflexivity
    | rewrite write_new
    | progress unfold lift
    | match goal with
      | E : ?x = Ok _ |- context [?x] => rewrite E
      | E : ?x = Raise _ |- context [?x] => rewrite E
      end
    | progress (lazy beta iota; simpl length) ].

Ltac run := unfold process_data, mbind, M_bind; repeat run_step.

Section Run.
Context (h : heap) (li le lv lc : loc) (fi fe fv fc : frame).
Hypothesis Hi : h !! li = Some (Frame fi).
Hypothesis He : h !! le = Some (Frame fe).
Hypothesis Hv : h !! lv = Some (Frame fv).
Hypothesis Hc : h !! lc = Some (Frame fc).

(** The call computes [summaries] of the four frames it is given, and
    only appends to the store. *)
Lemma process_data_run :
  ∃ ext,
    process_data li le lv lc h
    = (refs_of (length h) <$> summaries fi fe fv fc, h ++ ext)
    ∧ ∀ t, summaries fi fe fv fc = Ok t → ext = objects_of t.
Proof.
  cut (∃ ext,
    process_data li le lv lc (h ++ [])
    = (refs_of (length h) <$> summaries fi fe fv fc, h ++ ext)
    ∧ ∀ t, summaries fi fe fv fc = Ok t → ext = objects_of t).
  { by rewrite app_nil_r. }
  unfold summaries, mbind, result_bind.
  destruct (monthly_sum fi "category" "amount") as [mi|e] eqn:E1;
    [|eexists; split; [run; reflexivity|done]].
  destruct (column_total fi "amount") as [ti|e] eqn:E2;
    [|eexists; split; [run; reflexivity|done]].
  destruct (monthly_sum fe "category" "amount") as [me|e] eqn:E3;
    [|eexists; split; [run; reflexivity|done]].
  destruct (column_total fe "amount") as [te|e] eqn:E4;
    [|eexists; split; [run; reflexivity|done]].
  destruct (monthly_stock_value fv) as [mv|e] eqn:E5;
    [|eexists; split; [run; reflexivity|done]].
  destruct (stock_values fv) as [sv|e] eqn:E6;
    [|eexists; split; [run; reflexivity|done]].
  destruct (monthly_sum fc "type" "amount") as [mcf|e] eqn:E7;
    [|eexists; split; [run; reflexivity|done]].
  destruct (pivot_getitem mcf (Str "Inflow")) as [i|e] eqn:E8;
    [|eexists; split; [run; reflexivity|done]].
  destruct (pivot_getitem mcf (Str "Outflow")) as [o|e] eqn:E9;
    [|eexists; split; [run; reflexivity|done]].
  eexists; split; [run; reflexivity|].
  by intros t [= <-].
Qed.

Lemma process_data_Ok (t : tables) :
  summaries fi fe fv fc = Ok t →
  process_data li le lv lc h = (Ok (refs_of (length h) t), h ++ objects_of t).
Proof.
  intros Ht. destruct process_data_run as (ext & -> & Hext).
  by rewrite Ht, (Hext t Ht).
Qed.

Lemma process_data_Raise (e : exn) :
  summaries fi fe fv fc = Raise e →
  ∃ ext, process_data li le lv lc h = (Raise e, h ++ ext).
Proof.
  intros Ht. destruct process_data_run as (ext & -> & _).
  rewrite Ht. by exists ext.
Qed.

Lemma process_data_inv (r : financial_data) (h' : heap) :
  process_data li le lv lc h = (Ok r, h') →
  ∃ t, summaries fi fe fv fc = Ok t
       ∧ r = refs_of (length h) t ∧ h' = h ++ objects_of t.
Proof.
  destruct process_data_run as (ext & -> & Hext).
  destruct (summaries fi fe fv fc) as [t|e]; [|done].
  intros [= <- <-]. exists t. by rewrite (Hext t).
Qed.
End Run.

(** ** Tables built cell by cell *)

Lemma unstack_tabulate (fill_value : Z) (s : list (key * Z)) :
  unstack fill_value s
  = tabulate (unique_sorted label_leb (s.*1.*2))
             (unique_sorted period_leb (s.*1.*1))
             (λ m c, default fill_value (assoc (m, c) s)).
Proof. done. Qed.

Section Tabulate.
Context (cols : list label) (idx : list period) (g : period → label → Z).

Lemma tabulate_wf : pivot_wf (tabulate cols idx g).
Proof.
  intros r (m & -> & _)%list_elem_of_fmap. simpl. by rewrite length_fmap.
Qed.

Lemma index_tabulate : index (tabulate cols idx g) = idx.
Proof.
  unfold index, tabulate; simpl. rewrite <- list_fmap_compose.
  by rewrite <- (list_fmap_id idx) at 2.
Qed.

Lemma at_tabulate (m : period) (c : label) :
  m ∈ idx → c ∈ cols → at_ (tabulate cols idx g) m c = Some (Val (g m c)).
Proof.
  intros Hm Hc. unfold at_, tabulate; simpl.
  rewrite (assoc_tabulate (λ m, (λ c, Val (g m c)) <$> cols)).
  destruct (decide (m ∈ idx)); [simpl|done].
  destruct (position_Some c cols Hc) as (i & -> & Hi); simpl.
  by rewrite list_lookup_fmap, Hi.
Qed.

Lemma getitem_tabulate (c : label) :
  c ∈ cols →
  pivot_getitem (tabulate cols idx g) c = Ok ((λ m, (m, Val (g m c))) <$> idx).
Proof.
  intros Hc. unfold pivot_getitem, tabulate; simpl.
  destruct (position_Some c cols Hc) as (i & -> & Hi).
  f_equal. rewrite <- list_fmap_compose. apply list_fmap_ext.
  intros _ m _; simpl. by rewrite list_lookup_fmap, Hi.
Qed.

Lemma getitem_tabulate_missing (c : label) :
  c ∉ cols → pivot_getitem (tabulate cols idx g) c = Raise (KeyError c).
Proof.
  intros Hc%position_None. unfold pivot_getitem, tabulate; simpl.
  by rewrite Hc.
Qed.

Lemma sum_axis1_tabulate :
  sum_axis1 (tabulate cols idx g)
  = (λ m, (m, Val (isum (g m <$> cols)))) <$> idx.
Proof.
  unfold sum_axis1, tabulate; simpl. rewrite <- list_fmap_compose.
  apply list_fmap_ext. intros _ m _; simpl.
  by rewrite <- list_fmap_compose.
Qed.

Lemma cells_total_tabulate :
  cells_total (tabulate cols idx g) = Zsum ((λ m, Zsum (g m <$> cols)) <$> idx).
Proof.
  unfold cells_total, tabulate; simpl. rewrite <- list_fmap_compose.
  f_equal. apply list_fmap_ext. intros _ m _; simpl.
  by rewrite <- list_fmap_compose.
Qed.

Lemma cells_sum_tabulate :
  cells_sum (tabulate cols idx g) = isum ((λ m, Zsum (g m <$> cols)) <$> idx).
Proof. unfold cells_sum. by rewrite cells_total_tabulate. Qed.
End Tabulate.

(** ** Aligned subtraction *)

(** A Series with a number for every month of [idx]. *)
Lemma tabulated_not_float (idx : list period) (f : period → Z) :
  is_float ((λ m, (m, Val (f m))) <$> idx) = false.
Proof.
  unfold is_float. apply bool_decide_eq_false.
  rewrite <- list_fmap_compose.
  by intros (m & ? & _)%list_elem_of_fmap.
Qed.

Lemma fst_tabulate {K V : Type} (f : K → V) (l : list K) :
  ((λ x, (x, f x)) <$> l).*1 = l.
Proof. induction l as [|x l IH]; csimpl; [done|by rewrite IH]. Qed.

(** With the same months on both sides the subtraction stays in int64. *)
Lemma series_sub_same_index (idx : list period) (f g : period → Z) :
  series_sub ((λ m, (m, Val (f m))) <$> idx) ((λ m, (m, Val (g m))) <$> idx)
  = (λ m, (m, Val (wrap64 (f m - g m)))) <$> idx.
Proof.
  unfold series_sub.
  rewrite bool_decide_eq_true_2 by (by rewrite !fst_tabulate).
  rewrite !tabulated_not_float. simpl.
  induction idx as [|m idx IH]; csimpl; [done|by rewrite IH].
Qed.

(** With different months the operands are aligned on the union of their
    months, in float64. *)
Lemma assoc_series_sub (a b : Series) (m : period) :
  a.*1 ≠ b.*1 →
  assoc m (series_sub a b)
  = if decide (m ∈ a.*1 ++ b.*1)
    then Some (vsub true (default NaN (assoc m a)) (default NaN (assoc m b)))
    else None.
Proof.
  intros Hne. unfold series_sub.
  rewrite bool_decide_eq_false_2 by done.
  rewrite (assoc_tabulate
    (λ m, vsub true (default NaN (assoc m a)) (default NaN (assoc m b)))).
  destruct (decide (m ∈ unique_sorted period_leb (a.*1 ++ b.*1))) as [Hin|Hout],
           (decide (m ∈ a.*1 ++ b.*1)) as [Hin'|Hout']; try done.
  - by apply elem_of_unique_sorted in Hin.
  - destruct Hout. by apply elem_of_unique_sorted.
Qed.

Lemma index_series_sub (a b : Series) :
  a.*1 ≠ b.*1 →
  (series_sub a b).*1 = unique_sorted period_leb (a.*1 ++ b.*1).
Proof.
  intros Hne. unfold series_sub.
  rewrite bool_decide_eq_false_2 by done.
  apply (fst_tabulate
    (λ m, vsub true (default NaN (assoc m a)) (default NaN (assoc m b)))).
Qed.

Lemma assoc_None_index {V : Type} (m : period) (l : list (period * V)) :
  m ∉ l.*1 → assoc m l = None.
Proof.
  intros Hout. destruct (assoc m l) as [v|] eqn:E; [|done].
  destruct Hout. apply assoc_Some_elem in E.
  apply list_elem_of_fmap. by exists (m, v).
Qed.

(** ** Setting a column *)

Lemma index_setitem (p : pivot) (c : label) (s : Series) :
  index (pivot_setitem p c s) = index p.
Proof.
  unfold index, pivot_setitem.
  destruct (position c (columns p)); simpl;
    rewrite <- list_fmap_compose; by apply list_fmap_ext.
Qed.

Lemma at_setitem_eq (p : pivot) (c : label) (s : Series) (m : period) :
  pivot_wf p → m ∈ index p →
  at_ (pivot_setitem p c s) m c = Some (default NaN (assoc m s)).
Proof.
  intros Hwf Hm. unfold at_, pivot_setitem.
  destruct (assoc_is_Some m (rows p) Hm) as [v Hv].
  pose proof (Hwf _ (assoc_Some_elem _ _ _ Hv)) as Hlen; simpl in Hlen.
  destruct (position c (columns p)) as [i|] eqn:Epos; simpl.
  - rewrite (assoc_fmap_row (λ r, <[i := default NaN (assoc r.1 s)]> r.2)), Hv.
    simpl. rewrite Epos; simpl.
    apply list_lookup_insert_eq. rewrite Hlen.
    apply position_lookup in Epos. by apply lookup_lt_Some in Epos.
  - rewrite (assoc_fmap_row (λ r, r.2 ++ [default NaN (assoc r.1 s)])), Hv.
    simpl. rewrite (position_snoc _ _ Epos); simpl.
    by apply list_lookup_middle.
Qed.

Lemma at_setitem_ne (p : pivot) (c c' : label) (s : Series) (m : period) :
  pivot_wf p → c' ≠ c → at_ (pivot_setitem p c s) m c' = at_ p m c'.
Proof.
  intros Hwf Hne. unfold at_, pivot_setitem.
  destruct (position c (columns p)) as [i|] eqn:Epos; simpl.
  - rewrite (assoc_fmap_row (λ r, <[i := default NaN (assoc r.1 s)]> r.2)).
    destruct (assoc m (rows p)) as [v|]; simpl; [|done].
    destruct (position c' (columns p)) as [j|] eqn:Epos'; simpl; [|done].
    apply list_lookup_insert_ne. intros ->.
    apply Hne. by eapply position_inj.
  - rewrite (assoc_fmap_row (λ r, r.2 ++ [default NaN (assoc r.1 s)])).
    destruct (assoc m (rows p)) as [v|] eqn:Hv; simpl; [|done].
    pose proof (Hwf _ (assoc_Some_elem _ _ _ Hv)) as Hlen; simpl in Hlen.
    destruct (position c' (columns p)) as [j|] eqn:Epos'; simpl.
    + rewrite (position_app_l _ _ _ _ Epos'); simpl.
      apply lookup_app_l. rewrite Hlen.
      apply position_lookup in Epos'. by apply lookup_lt_Some in Epos'.
    + by rewrite (position_snoc_ne _ _ _ Hne Epos').
Qed.

(** ** Grouping *)

Lemma tabulate_ext (cols : list label) (idx : list period)
    (g g' : period → label → Z) :
  (∀ m c, g m c = g' m c) → tabulate cols idx g = tabulate cols idx g'.
Proof.
  intros Hg. unfold tabulate. f_equal. apply list_fmap_ext.
  intros _ m _. f_equal. apply list_fmap_ext. intros _ c _. by rewrite Hg.
Qed.

Lemma group_total_cons (r : key * Z) (rows : list (key * Z)) (k : key) :
  group_total (r :: rows) k
  = (if decide (r.1 = k) then r.2 else 0) + group_total rows k.
Proof.
  unfold group_total. rewrite filter_cons.
  destruct (decide (r.1 = k)); zsum; lia.
Qed.

Lemma group_total_unobserved (rows : list (key * Z)) (k : key) :
  k ∉ rows.*1 → group_total rows k = 0.
Proof.
  induction rows as [|r t IH]; intros Hout; [done|].
  rewrite group_total_cons, IH.
  - destruct (decide (r.1 = k)) as [<-|]; [|done].
    destruct Hout. csimpl. apply list_elem_of_here.
  - intros Hin. apply Hout. csimpl. by apply list_elem_of_further.
Qed.

Lemma assoc_groupby_sum (ks : list key) (vs : list Z) (k : key) :
  assoc k (groupby_sum ks vs)
  = if decide (k ∈ (zip ks vs).*1)
    then Some (wrap64 (group_total (zip ks vs) k)) else None.
Proof.
  unfold groupby_sum.
  rewrite (assoc_tabulate (λ k, wrap64 (group_total (zip ks vs) k))).
  destruct (decide (k ∈ unique_sorted key_leb (zip ks vs).*1)) as [Hin|Hout],
           (decide (k ∈ (zip ks vs).*1)) as [Hin'|Hout']; try done.
  - by apply elem_of_unique_sorted in Hin.
  - destruct Hout. by apply elem_of_unique_sorted.
Qed.

Lemma default_groupby_sum (ks : list key) (vs : list Z) (k : key) :
  default 0 (assoc k (groupby_sum ks vs)) = wrap64 (group_total (zip ks vs) k).
Proof.
  rewrite assoc_groupby_sum.
  destruct (decide (k ∈ (zip ks vs).*1)); simpl; [done|].
  by rewrite group_total_unobserved.
Qed.

Lemma keys_groupby_sum (ks : list key) (vs : list Z) (k : key) :
  k ∈ (groupby_sum ks vs).*1 ↔ k ∈ (zip ks vs).*1.
Proof.
  unfold groupby_sum. rewrite <- list_fmap_compose, list_elem_of_fmap.
  split.
  - intros (x & -> & Hx). by apply elem_of_unique_sorted in Hx.
  - intros Hk. exists k. split; [done|]. by apply elem_of_unique_sorted.
Qed.

Lemma zip_fmap_fmap {A B C : Type} (f : A → B) (g : A → C) (l : list A) :
  zip (f <$> l) (g <$> l) = (λ x, (f x, g x)) <$> l.
Proof. induction l as [|x t IH]; csimpl; [done|by rewrite IH]. Qed.

(** The table of a list of records: its columns are the labels that occur,
    its index the months that occur, its cells the group totals. *)
Section PivotOf.
Context {A : Type} (k : A → key) (v : A → Z) (t : list A).

Let recs : list (key * Z) := (λ x, (k x, v x)) <$> t.

Lemma pivot_of_tabulate :
  pivot_of k v t
  = tabulate (columns (pivot_of k v t)) (index (pivot_of k v t))
             (λ m c, wrap64 (group_total recs (m, c))).
Proof.
  unfold pivot_of at 1. rewrite unstack_tabulate.
  rewrite (tabulate_ext _ _ _ (λ m c, wrap64 (group_total recs (m, c)))).
  - unfold pivot_of. rewrite unstack_tabulate, index_tabulate. done.
  - intros m c. rewrite default_groupby_sum. unfold recs.
    by rewrite zip_fmap_fmap.
Qed.

Lemma elem_of_columns_pivot_of (c : label) :
  c ∈ columns (pivot_of k v t) ↔ ∃ x, x ∈ t ∧ (k x).2 = c.
Proof.
  unfold pivot_of, unstack; simpl. rewrite elem_of_unique_sorted.
  rewrite list_elem_of_fmap. split.
  - intros (key & -> & Hkey). apply keys_groupby_sum in Hkey.
    rewrite zip_fmap_fmap, <- list_fmap_compose in Hkey.
    apply list_elem_of_fmap in Hkey as (x & -> & Hx). by exists x.
  - intros (x & Hx & <-). exists (k x). split; [done|].
    apply keys_groupby_sum. rewrite zip_fmap_fmap, <- list_fmap_compose.
    apply list_elem_of_fmap. by exists x.
Qed.

Lemma elem_of_index_pivot_of (m : period) :
  m ∈ index (pivot_of k v t) ↔ ∃ x, x ∈ t ∧ (k x).1 = m.
Proof.
  unfold pivot_of. rewrite unstack_tabulate, index_tabulate.
  rewrite elem_of_unique_sorted, list_elem_of_fmap. split.
  - intros (key & -> & Hkey). apply keys_groupby_sum in Hkey.
    rewrite zip_fmap_fmap, <- list_fmap_compose in Hkey.
    apply list_elem_of_fmap in Hkey as (x & -> & Hx). by exists x.
  - intros (x & Hx & <-). exists (k x). split; [done|].
    apply keys_groupby_sum. rewrite zip_fmap_fmap, <- list_fmap_compose.
    apply list_elem_of_fmap. by exists x.
Qed.

Lemma NoDup_columns_pivot_of : NoDup (columns (pivot_of k v t)).
Proof. apply NoDup_unique_sorted. Qed.

Lemma NoDup_index_pivot_of : NoDup (index (pivot_of k v t)).
Proof.
  unfold pivot_of. rewrite unstack_tabulate, index_tabulate.
  apply NoDup_unique_sorted.
Qed.

Lemma pivot_of_wf : pivot_wf (pivot_of k v t).
Proof. rewrite pivot_of_tabulate. apply tabulate_wf. Qed.

(** An explicit cell for every month of the index and every column. *)
Lemma at_pivot_of (m : period) (c : label) :
  m ∈ index (pivot_of k v t) → c ∈ columns (pivot_of k v t) →
  at_ (pivot_of k v t) m c = Some (Val (wrap64 (group_total recs (m, c)))).
Proof. intros Hm Hc. rewrite pivot_of_tabulate. by apply at_tabulate. Qed.

(** The cell of a pair that was not observed holds the fill value. *)
Lemma group_total_fill (m : period) (c : label) :
  (∀ x, x ∈ t → k x ≠ (m, c)) → group_total recs (m, c) = 0.
Proof.
  intros Hno. apply group_total_unobserved. unfold recs.
  rewrite <- list_fmap_compose.
  intros (x & Hx & Hin)%list_elem_of_fmap. by apply (Hno x).
Qed.
End PivotOf.

(** ** The aggregator on the tables of the data model *)

(** Complete records: no row is dropped. *)
Lemma dropna_records {A : Type} (k : A → key) (v : A → Z) (t : list A) :
  dropna ((λ x, Some (k x)) <$> t) (v <$> t) = (λ x, (k x, v x)) <$> t.
Proof.
  unfold dropna. induction t as [|x t IH]; csimpl; [done|by rewrite IH].
Qed.

Lemma groupby_records {A : Type} (k : A → key) (v : A → Z) (t : list A) :
  let rows := dropna ((λ x, Some (k x)) <$> t) (v <$> t) in
  unstack 0 (groupby_sum rows.*1 rows.*2) = pivot_of k v t.
Proof.
  simpl. rewrite dropna_records. unfold pivot_of.
  by rewrite <- !list_fmap_compose.
Qed.

Lemma zip_with_fmap_fmap {A B C D : Type} (f : B → C → D) (g : A → B)
    (h : A → C) (l : list A) :
  zip_with f (g <$> l) (h <$> l) = (λ x, f (g x) (h x)) <$> l.
Proof. induction l as [|x t IH]; csimpl; [done|by rewrite IH]. Qed.

Lemma groupby_month_transactions (t : list transaction) :
  groupby_month (transactions_frame t) "category"
  = Ok ((λ x, Some (transaction_key x)) <$> t).
Proof.
  unfold groupby_month; simpl. unfold mret, result_ret. f_equal.
  by rewrite <- list_fmap_compose, zip_with_fmap_fmap.
Qed.

Lemma monthly_sum_transactions (t : list transaction) :
  monthly_sum (transactions_frame t) "category" "amount"
  = Ok (pivot_of transaction_key t_amount t).
Proof.
  unfold monthly_sum. rewrite groupby_month_transactions; simpl.
  unfold mret, result_ret. f_equal.
  apply (groupby_records transaction_key t_amount).
Qed.

Lemma column_total_transactions (t : list transaction) :
  column_total (transactions_frame t) "amount" = Ok (isum (t_amount <$> t)).
Proof. done. Qed.

Lemma stock_values_inventory (t : list stock) :
  stock_values (inventory_frame t) = Ok (stock_value <$> t).
Proof.
  unfold stock_values; simpl. unfold mret, result_ret. f_equal.
  apply zip_with_fmap_fmap.
Qed.

Lemma groupby_month_inventory (t : list stock) :
  groupby_month (inventory_frame t) "product"
  = Ok ((λ x, Some (stock_key x)) <$> t).
Proof.
  unfold groupby_month; simpl. unfold mret, result_ret. f_equal.
  by rewrite <- list_fmap_compose, zip_with_fmap_fmap.
Qed.

Lemma monthly_stock_value_inventory (t : list stock) :
  monthly_stock_value (inventory_frame t) = Ok (pivot_of stock_key stock_value t).
Proof.
  unfold monthly_stock_value.
  rewrite groupby_month_inventory, stock_values_inventory; simpl.
  unfold mret, result_ret. f_equal.
  apply (groupby_records stock_key stock_value).
Qed.

Lemma groupby_month_cash_flow (t : list cash_flow) :
  groupby_month (cash_flow_frame t) "type"
  = Ok ((λ x, Some (cash_flow_key x)) <$> t).
Proof.
  unfold groupby_month; simpl. unfold mret, result_ret. f_equal.
  by rewrite <- list_fmap_compose, zip_with_fmap_fmap.
Qed.

Lemma monthly_sum_cash_flow (t : list cash_flow) :
  monthly_sum (cash_flow_frame t) "type" "amount"
  = Ok (pivot_of cash_flow_key f_amount t).
Proof.
  unfold monthly_sum. rewrite groupby_month_cash_flow; simpl.
  unfold mret, result_ret. f_equal.
  apply (groupby_records cash_flow_key f_amount).
Qed.

(** Whether some row of the cash-flow table has the given type. *)
Lemma cash_flow_column (t : list cash_flow) (ty : string) :
  Str ty ∈ columns (pivot_of cash_flow_key f_amount t) ↔ ty ∈ f_type <$> t.
Proof.
  rewrite elem_of_columns_pivot_of, list_elem_of_fmap. split.
  - intros (x & Hx & [= <-]). by exists x.
  - intros (x & -> & Hx). by exists x.
Qed.

Lemma getitem_cash_flow (t : list cash_flow) (ty : string) :
  pivot_getitem (pivot_of cash_flow_key f_amount t) (Str ty)
  = if decide (ty ∈ f_type <$> t)
    then Ok (flow_series t ty)
    else Raise (KeyError (Str ty)).
Proof.
  rewrite pivot_of_tabulate at 1.
  destruct (decide (ty ∈ f_type <$> t)) as [Hin|Hout].
  - apply getitem_tabulate. by apply cash_flow_column.
  - apply getitem_tabulate_missing. by rewrite cash_flow_column.
Qed.

(** ** Every amount lands in exactly one cell *)

Lemma Zsum_one_cell (idx : list period) (cols : list label) (k0 : key) (v : Z) :
  NoDup idx → NoDup cols → k0.1 ∈ idx → k0.2 ∈ cols →
  Zsum ((λ m, Zsum ((λ c, if decide (k0 = (m, c)) then v else 0) <$> cols))
          <$> idx) = v.
Proof.
  intros Hidx Hcols Hm Hc. destruct k0 as [m0 c0]; simpl in *.
  rewrite (Zsum_ext _ (λ m, if decide (m = m0) then v else 0)).
  - rewrite Zsum_indicator by done. by destruct (decide (m0 ∈ idx)).
  - intros m _. destruct (decide (m = m0)) as [->|Hne].
    + rewrite (Zsum_ext _ (λ c, if decide (c = c0) then v else 0)).
      * rewrite Zsum_indicator by done. by destruct (decide (c0 ∈ cols)).
      * intros c _.
        repeat case_decide; congruence.
    + rewrite (Zsum_ext _ (λ _, 0)); [apply Zsum_zero|].
      intros c _. case_decide; congruence.
Qed.

Lemma sum_group_totals (rows : list (key * Z))
    (idx : list period) (cols : list label) :
  NoDup idx → NoDup cols →
  (∀ r, r ∈ rows → r.1.1 ∈ idx ∧ r.1.2 ∈ cols) →
  Zsum ((λ m, Zsum ((λ c, group_total rows (m, c)) <$> cols)) <$> idx)
  = Zsum rows.*2.
Proof.
  intros Hidx Hcols. induction rows as [|r t IH]; intros Hin.
  - rewrite (Zsum_ext _ (λ _, 0)); [apply Zsum_zero|].
    intros m _. rewrite (Zsum_ext _ (λ _, 0)); [apply Zsum_zero|done].
  - rewrite (Zsum_ext _
      (λ m, Zsum ((λ c, if decide (r.1 = (m, c)) then r.2 else 0) <$> cols)
            + Zsum ((λ c, group_total t (m, c)) <$> cols))).
    + rewrite Zsum_plus, IH.
      * destruct (Hin r) as [Hm Hc]; [apply list_elem_of_here|].
        rewrite Zsum_one_cell by done. by zsum.
      * intros r' Hr'. by apply Hin, list_elem_of_further.
    + intros m _. rewrite <- Zsum_plus. apply Zsum_ext.
      intros c _. apply group_total_cons.
Qed.

Lemma cells_sum_pivot_of {A : Type} (k : A → key) (v : A → Z) (t : list A) :
  cells_sum (pivot_of k v t) = isum (v <$> t).
Proof.
  rewrite pivot_of_tabulate, cells_sum_tabulate.
  rewrite <- (isum_wrap (λ m, Zsum _)).
  rewrite (list_fmap_ext _
    (λ m, wrap64 (Zsum ((λ c, group_total ((λ x, (k x, v x)) <$> t) (m, c))
                          <$> columns (pivot_of k v t)))) (index (pivot_of k v t)))
    by (intros _ m _; apply (isum_wrap (λ c, group_total _ (m, c)))).
  rewrite (isum_wrap
    (λ m, Zsum ((λ c, group_total ((λ x, (k x, v x)) <$> t) (m, c))
                  <$> columns (pivot_of k v t)))).
  unfold isum. rewrite sum_group_totals.
  - by rewrite <- list_fmap_compose.
  - apply NoDup_index_pivot_of.
  - apply NoDup_columns_pivot_of.
  - intros r (x & -> & Hx)%list_elem_of_fmap; simpl. split.
    + apply elem_of_index_pivot_of. by exists x.
    + apply elem_of_columns_pivot_of. by exists x.
Qed.






(** The row sums of a table are the monthly totals of its records. *)
Lemma assoc_sum_axis1 (p : pivot) (m : period) :
  assoc m (sum_axis1 p)
  = match assoc m (rows p) with
    | Some row => Some (Val (isum (skipna <$> row)))
    | None => None
    end.
Proof.
  unfold sum_axis1.
  by rewrite (assoc_fmap_row (λ r, Val (isum (skipna <$> r.2)))).
Qed.

Lemma index_sum_axis1 (p : pivot) : (sum_axis1 p).*1 = index p.
Proof.
  unfold sum_axis1, index. rewrite <- list_fmap_compose.
  by apply list_fmap_ext.
Qed.

Lemma summaries_tables (income expenses : list transaction)
    (inventory : list stock) (cash : list cash_flow) :
  summaries (transactions_frame income) (transactions_frame expenses)
            (inventory_frame inventory) (cash_flow_frame cash)
  = if decide ("Inflow" ∈ f_type <$> cash)
    then if decide ("Outflow" ∈ f_type <$> cash)
         then Ok (tables_of income expenses inventory cash)
         else Raise (KeyError (Str "Outflow"))
    else Raise (KeyError (Str "Inflow")).
Proof.
  unfold summaries.
  rewrite !monthly_sum_transactions, !column_total_transactions,
    monthly_stock_value_inventory, stock_values_inventory,
    monthly_sum_cash_flow.
  unfold mbind, result_bind. rewrite !getitem_cash_flow.
  by repeat case_decide.
Qed.

Lemma monthly_sum_inv (df : frame) (by_ value : string) (p : pivot) :
  monthly_sum df by_ value = Ok p → ∃ s, p = unstack 0 s.
Proof.
  unfold monthly_sum, mbind, result_bind.
  destruct (groupby_month df by_) as [ks|]; [|done].
  destruct (getitem df value) as [a|]; [|done].
  destruct (as_numeric a) as [vs|]; [|done].
  intros [= <-]. by eexists.
Qed.

Lemma summaries_inv (fi fe fv fc : frame) (t : tables) :
  summaries fi fe fv fc = Ok t →
  monthly_sum fi "category" "amount" = Ok (income_pivot t)
  ∧ column_total fi "amount" = Ok (income_total t)
  ∧ monthly_sum fe "category" "amount" = Ok (expense_pivot t)
  ∧ column_total fe "amount" = Ok (expense_total t)
  ∧ monthly_stock_value fv = Ok (inventory_pivot t)
  ∧ (∃ sv, stock_values fv = Ok sv ∧ inventory_total t = isum sv)
  ∧ monthly_sum fc "type" "amount" = Ok (cash_pivot t)
  ∧ pivot_getitem (cash_pivot t) (Str "Inflow") = Ok (inflow t)
  ∧ pivot_getitem (cash_pivot t) (Str "Outflow") = Ok (outflow t).
Proof.
  unfold summaries, mbind, result_bind.
  destruct (monthly_sum fi "category" "amount") as [mi|]; [|done].
  destruct (column_total fi "amount") as [ti|]; [|done].
  destruct (monthly_sum fe "category" "amount") as [me|]; [|done].
  destruct (column_total fe "amount") as [te|]; [|done].
  destruct (monthly_stock_value fv) as [mv|]; [|done].
  destruct (stock_values fv) as [sv|]; [|done].
  destruct (monthly_sum fc "type" "amount") as [mcf|]; [|done].
  destruct (pivot_getitem mcf (Str "Inflow")) as [i|] eqn:Ei; [|done].
  destruct (pivot_getitem mcf (Str "Outflow")) as [o|] eqn:Eo; [|done].
  intros [= <-]; simpl. repeat split; try done. by exists sv.
Qed.

(** The objects of a successful call, read back through the returned
    references. *)
Lemma lookup_objects (h : heap) (t : tables) :
  (h ++ objects_of t) !! monthly_income (refs_of (length h) t)
    = Some (Pivot (income_pivot t))
  ∧ (h ++ objects_of t) !! monthly_expenses (refs_of (length h) t)
    = Some (Pivot (expense_pivot t))
  ∧ (h ++ objects_of t) !! monthly_pnl (refs_of (length h) t)
    = Some (SeriesObj (pnl_of t))
  ∧ (h ++ objects_of t) !! monthly_inventory_value (refs_of (length h) t)
    = Some (Pivot (inventory_pivot t))
  ∧ (h ++ objects_of t) !! monthly_cash_flow (refs_of (length h) t)
    = Some (Pivot (cash_flow_of t)).
Proof.
  simpl. repeat split; rewrite lookup_app_r by lia;
    by rewrite Nat.add_sub'.
Qed.

(** ** The Net column *)

Section NetColumn.
Context (cols : list label) (idx : list period) (g : period → label → Z).
Context (i o : Series).
Hypothesis Hi : pivot_getitem (tabulate cols idx g) (Str "Inflow") = Ok i.
Hypothesis Ho : pivot_getitem (tabulate cols idx g) (Str "Outflow") = Ok o.

Let net : pivot :=
  pivot_setitem (tabulate cols idx g) (Str "Net") (series_sub i o).

Lemma getitem_Ok_column (c : label) (s : Series) :
  pivot_getitem (tabulate cols idx g) c = Ok s →
  c ∈ cols ∧ s = (λ m, (m, Val (g m c))) <$> idx.
Proof.
  intros Hs. destruct (decide (c ∈ cols)) as [Hin|Hout].
  - rewrite getitem_tabulate in Hs by done. by injection Hs as <-.
  - by rewrite getitem_tabulate_missing in Hs.
Qed.

Lemma net_column (m : period) :
  m ∈ index net →
  at_ net m (Str "Inflow") = Some (Val (g m (Str "Inflow")))
  ∧ at_ net m (Str "Outflow") = Some (Val (g m (Str "Outflow")))
  ∧ at_ net m (Str "Net")
    = Some (Val (wrap64 (g m (Str "Inflow") - g m (Str "Outflow")))).
Proof.
  unfold net. rewrite index_setitem, index_tabulate. intros Hm.
  destruct (getitem_Ok_column _ _ Hi) as [Hci ->].
  destruct (getitem_Ok_column _ _ Ho) as [Hco ->].
  repeat split.
  - rewrite at_setitem_ne by (done || apply tabulate_wf).
    by apply at_tabulate.
  - rewrite at_setitem_ne by (done || apply tabulate_wf).
    by apply at_tabulate.
  - rewrite at_setitem_eq by (by rewrite ?index_tabulate || apply tabulate_wf).
    rewrite (series_sub_same_index idx (λ m, g m (Str "Inflow"))
               (λ m, g m (Str "Outflow"))).
    rewrite (assoc_tabulate
               (λ m, Val (wrap64 (g m (Str "Inflow") - g m (Str "Outflow"))))).
    by rewrite decide_True.
Qed.

(** Apart from Net, the cells are those of the table before the update. *)
Lemma net_other (m : period) (c : label) :
  c ≠ Str "Net" → at_ net m c = at_ (tabulate cols idx g) m c.
Proof. intros Hc. unfold net. by rewrite at_setitem_ne by (done || apply tabulate_wf). Qed.
End NetColumn.

(** * The claims of the specification *)

Section Aggregator.
Context (h : heap) (income_df expense_df inventory_df cash_flow_df : loc).
Context (fi fe fv fc : frame).
Hypothesis Hincome : h !! income_df = Some (Frame fi).
Hypothesis Hexpense : h !! expense_df = Some (Frame fe).
Hypothesis Hinventory : h !! inventory_df = Some (Frame fv).
Hypothesis Hcash : h !! cash_flow_df = Some (Frame fc).

(** C3.  In the cash-flow table that a successful call returns, every
    month has an Inflow, an Outflow and a Net cell, and
    Net = Inflow - Outflow, the difference that the code takes: of two int64
    cells, in int64.  It is the exact difference whenever that fits int64. *)
Theorem net_is_inflow_minus_outflow (r : financial_data) (h' : heap) :
  process_data income_df expense_df inventory_df cash_flow_df h = (Ok r, h') →
  ∃ p, h' !! monthly_cash_flow r = Some (Pivot p)
       ∧ ∀ m, m ∈ index p →
           ∃ i o : Z,
             at_ p m (Str "Inflow") = Some (Val i)
             ∧ at_ p m (Str "Outflow") = Some (Val o)
             ∧ at_ p m (Str "Net") = Some (Val (wrap64 (i - o)))
             ∧ (- 2 ^ 63 ≤ i - o < 2 ^ 63 →
                at_ p m (Str "Net") = Some (Val (i - o))).
Proof.
  intros Hrun.
  destruct (process_data_inv _ _ _ _ _ _ _ _ _
              Hincome Hexpense Hinventory Hcash _ _ Hrun)
    as (t & Ht & -> & ->).
  destruct (lookup_objects h t) as (_ & _ & _ & _ & Hcf).
  exists (cash_flow_of t). split; [done|]. intros m Hm.
  apply summaries_inv in Ht as (_ & _ & _ & _ & _ & _ & Hp & Hi & Ho).
  apply monthly_sum_inv in Hp as [s Hs]. unfold cash_flow_of in *.
  rewrite Hs, unstack_tabulate in *.
  destruct (net_column _ _ _ _ _ Hi Ho m Hm) as (Ei & Eo & En).
  eexists _, _. repeat split; [done..|].
  intros Hfit. by rewrite En, wrap64_id.
Qed.

(** C10.  Whatever the call does, every object that was in the store
    before the call, the four argument tables among them, is unchanged
    after it. *)
Theorem arguments_not_mutated (r : result financial_data) (h' : heap) :
  process_data income_df expense_df inventory_df cash_flow_df h = (r, h') →
  h' !! income_df = Some (Frame fi)
  ∧ h' !! expense_df = Some (Frame fe)
  ∧ h' !! inventory_df = Some (Frame fv)
  ∧ h' !! cash_flow_df = Some (Frame fc)
  ∧ ∀ l o, h !! l = Some o → h' !! l = Some o.
Proof.
  destruct (process_data_run _ _ _ _ _ _ _ _ _
              Hincome Hexpense Hinventory Hcash) as (ext & -> & _).
  intros [= _ <-].
  repeat split; try intros l o; by apply lookup_app_l_Some.
Qed.
End Aggregator.

Section DataModel.
Context (income expenses : list transaction).
Context (inventory : list stock) (cash : list cash_flow).
Context (h : heap) (income_df expense_df inventory_df cash_flow_df : loc).
Hypothesis Hincome : h !! income_df = Some (Frame (transactions_frame income)).
Hypothesis Hexpense : h !! expense_df = Some (Frame (transactions_frame expenses)).
Hypothesis Hinventory : h !! inventory_df = Some (Frame (inventory_frame inventory)).
Hypothesis Hcash : h !! cash_flow_df = Some (Frame (cash_flow_frame cash)).

(** What a call on four tables of the data model does. *)
Lemma process_data_tables :
  ∃ ext,
    process_data income_df expense_df inventory_df cash_flow_df h
    = (if decide ("Inflow" ∈ f_type <$> cash)
       then if decide ("Outflow" ∈ f_type <$> cash)
            then Ok (refs_of (length h) (tables_of income expenses inventory cash))
            else Raise (KeyError (Str "Outflow"))
       else Raise (KeyError (Str "Inflow")),
       h ++ ext)
    ∧ ("Inflow" ∈ f_type <$> cash → "Outflow" ∈ f_type <$> cash →
       ext = objects_of (tables_of income expenses inventory cash))
    ∧ length ext = 5%nat.
Proof.
  pose proof (monthly_sum_transactions income) as E1.
  pose proof (column_total_transactions income) as E2.
  pose proof (monthly_sum_transactions expenses) as E3.
  pose proof (column_total_transactions expenses) as E4.
  pose proof (monthly_stock_value_inventory inventory) as E5.
  pose proof (stock_values_inventory inventory) as E6.
  pose proof (monthly_sum_cash_flow cash) as E7.
  pose proof (getitem_cash_flow cash "Inflow") as E8.
  pose proof (getitem_cash_flow cash "Outflow") as E9.
  destruct (decide ("Inflow" ∈ f_type <$> cash)) as [Hin|Hin];
    [destruct (decide ("Outflow" ∈ f_type <$> cash)) as [Hout|Hout]|].
  - eexists. split; [|split; [reflexivity|done]].
    apply (process_data_Ok _ _ _ _ _ _ _ _ _
             Hincome Hexpense Hinventory Hcash).
    rewrite summaries_tables. by rewrite !decide_True.
  - eexists. split; [|split].
    + rewrite <- (app_nil_r h) at 1. run. reflexivity.
    + by intros _ ?.
    + done.
  - eexists. split; [|split].
    + rewrite <- (app_nil_r h) at 1. run. reflexivity.
    + by intros ?.
    + done.
Qed.

Lemma process_data_tables_Ok (r : financial_data) (h' : heap) :
  process_data income_df expense_df inventory_df cash_flow_df h = (Ok r, h') →
  "Inflow" ∈ f_type <$> cash ∧ "Outflow" ∈ f_type <$> cash
  ∧ r = refs_of (length h) (tables_of income expenses inventory cash)
  ∧ h' = h ++ objects_of (tables_of income expenses inventory cash).
Proof.
  destruct process_data_tables as (ext & -> & Hext & _).
  destruct (decide ("Inflow" ∈ f_type <$> cash)) as [Hin|]; [|done].
  destruct (decide ("Outflow" ∈ f_type <$> cash)) as [Hout|]; [|done].
  intros [= <- <-]. by rewrite Hext.
Qed.


Lemma pivot_of_zero_filled {A : Type} (k : A → key) (v : A → Z) (t : list A) :
  zero_filled (pivot_of k v t) k t.
Proof.
  intros m c Hm Hc.
  exists (wrap64 (group_total ((λ x, (k x, v x)) <$> t) (m, c))). split.
  - apply at_pivot_of; [done|]. by apply elem_of_columns_pivot_of.
  - intros Hno. by rewrite group_total_fill.
Qed.

(** C4.  The four tables of a successful call have no missing cells: every
    month of a table has an explicit cell for every category, product or
    flow type observed in any month, and that cell is 0 when the pair was
    not observed. *)
Theorem pivots_are_zero_filled (r : financial_data) (h' : heap) :
  flow_types cash →
  process_data income_df expense_df inventory_df cash_flow_df h = (Ok r, h') →
  ∃ mi me mv mcf,
    h' !! monthly_income r = Some (Pivot mi)
    ∧ h' !! monthly_expenses r = Some (Pivot me)
    ∧ h' !! monthly_inventory_value r = Some (Pivot mv)
    ∧ h' !! monthly_cash_flow r = Some (Pivot mcf)
    ∧ zero_filled mi transaction_key income
    ∧ zero_filled me transaction_key expenses
    ∧ zero_filled mv stock_key inventory
    ∧ zero_filled mcf cash_flow_key cash.
Proof.
  intros Htypes (_ & _ & -> & ->)%process_data_tables_Ok.
  destruct (lookup_objects h (tables_of income expenses inventory cash))
    as (Hmi & Hme & _ & Hmv & Hmcf).
  do 4 eexists. repeat split; try done; simpl;
    try apply pivot_of_zero_filled.
  intros m c Hm Hc. unfold cash_flow_of in *; simpl in *.
  rewrite index_setitem in Hm.
  assert (c ≠ Str "Net") as Hnet.
  { destruct Hc as (x & Hx & <-). by destruct (Htypes x Hx) as [E|E]; rewrite E. }
  rewrite at_setitem_ne by (done || apply pivot_of_wf).
  by apply pivot_of_zero_filled.
Qed.

(** C9.  The call returns only if the cash-flow table has a row of type
    Inflow and a row of type Outflow.  When one of the two types is absent,
    the call raises KeyError for that type after the five tables have been
    built, where it reads the column for Net: the absent column is not
    taken as zero. *)
Theorem cash_flow_needs_both_types :
  (∀ r h',
     process_data income_df expense_df inventory_df cash_flow_df h = (Ok r, h') →
     "Inflow" ∈ f_type <$> cash ∧ "Outflow" ∈ f_type <$> cash)
  ∧ (¬ ("Inflow" ∈ f_type <$> cash ∧ "Outflow" ∈ f_type <$> cash) →
     ∃ ext,
       process_data income_df expense_df inventory_df cash_flow_df h
       = (Raise (KeyError (Str (if decide ("Inflow" ∈ f_type <$> cash)
                                then "Outflow" else "Inflow"))),
          h ++ ext)
       ∧ length ext = 5%nat).
Proof.
  split.
  - intros r h' (Hin & Hout & _)%process_data_tables_Ok. done.
  - intros Hnot. destruct process_data_tables as (ext & -> & _ & Hlen).
    exists ext. split; [|done].
    destruct (decide ("Inflow" ∈ f_type <$> cash)) as [Hin|]; [|done].
    destruct (decide ("Outflow" ∈ f_type <$> cash)) as [Hout|]; [|done].
    by destruct Hnot.
Qed.
End DataModel.

(** ** An inventory table with zero rows *)

Lemma as_numeric_empty (c : column) : empty_numeric c → as_numeric c = Ok [].
Proof. by intros [-> | ->]. Qed.

Lemma stock_values_empty (df : frame) :
  empty_inventory df → stock_values df = Ok [].
Proof.
  intros (_ & _ & (q & Hq & Eq) & (c & Hc & Ec)).
  unfold stock_values, getitem. rewrite Hq, Hc; simpl.
  by rewrite (as_numeric_empty q Eq), (as_numeric_empty c Ec).
Qed.

Lemma monthly_stock_value_empty (df : frame) :
  empty_inventory df → monthly_stock_value df = Ok (unstack 0 []).
Proof.
  intros Hdf. unfold monthly_stock_value.
  rewrite (stock_values_empty df Hdf).
  destruct Hdf as (Hd & [p Hp] & _).
  unfold groupby_month, getitem. by rewrite Hd, Hp.
Qed.

Section EmptyInventory.
Context (fi fe fv fc : frame).
Context (h : heap) (income_df expense_df inventory_df cash_flow_df : loc).
Hypothesis Hincome : h !! income_df = Some (Frame fi).
Hypothesis Hexpense : h !! expense_df = Some (Frame fe).
Hypothesis Hinventory : h !! inventory_df = Some (Frame fv).
Hypothesis Hcash : h !! cash_flow_df = Some (Frame fc).

(** C7.  An inventory table with zero rows raises no error and gives
    [total_inventory_value] 0: whenever the call returns on three tables
    together with some inventory table, it also returns on the same three
    tables together with an empty inventory table, with the same income and
    expense totals and with [total_inventory_value] 0. *)
Theorem empty_inventory_total_is_zero
    (fv0 : frame) (h0 : heap) (li le lv lc : loc)
    (r0 : financial_data) (h0' : heap) :
  empty_inventory fv →
  h0 !! li = Some (Frame fi) → h0 !! le = Some (Frame fe) →
  h0 !! lv = Some (Frame fv0) → h0 !! lc = Some (Frame fc) →
  process_data li le lv lc h0 = (Ok r0, h0') →
  ∃ r h',
    process_data income_df expense_df inventory_df cash_flow_df h = (Ok r, h')
    ∧ total_inventory_value r = 0
    ∧ total_income r = total_income r0
    ∧ total_expenses r = total_expenses r0.
Proof.
  intros Hempty Hi He Hv Hc Hrun.
  destruct (process_data_inv _ _ _ _ _ _ _ _ _ Hi He Hv Hc _ _ Hrun)
    as (t0 & Ht0 & -> & ->).
  apply summaries_inv in Ht0
    as (E1 & E2 & E3 & E4 & _ & _ & E7 & E8 & E9).
  do 2 eexists. split.
  - apply (process_data_Ok _ _ _ _ _ _ _ _ _
             Hincome Hexpense Hinventory Hcash).
    unfold summaries.
    rewrite E1, E2, E3, E4, (monthly_stock_value_empty fv Hempty),
      (stock_values_empty fv Hempty), E7.
    unfold mbind, result_bind. by rewrite E8, E9.
  - done.
Qed.
End EmptyInventory.

(** ** The checks of [main] before the aggregator runs *)

Section MainChecks.
Context (parse_date : string → option date) (from_epoch : Z → date).

Lemma parse_cell_None (c : option string) :
  parse_cell parse_date c = None ↔ ∃ s, c = Some s ∧ parse_date s = None.
Proof.
  destruct c as [s|]; simpl.
  - destruct (parse_date s) eqn:E; simpl.
    + split; [done|]. intros (? & [= <-] & ?). congruence.
    + split; [|done]. intros _. by exists s.
  - split; [done|]. by intros (? & ? & _).
Qed.

Lemma convert_dates_None (df : frame) :
  convert_dates parse_date from_epoch df = None ↔ unparseable parse_date df.
Proof.
  unfold convert_dates, unparseable.
  destruct (assoc "date" df) as [[v|v|v]|]; simpl.
  - split; [done|]. by intros (? & ? & ? & _).
  - destruct (mapM (parse_cell parse_date) v) as [k|] eqn:E; simpl.
    + split; [done|]. intros (v' & s & [= <-] & Hs & Hnone).
      assert (mapM (parse_cell parse_date) v = None) as Hm; [|congruence].
      apply mapM_None, Exists_exists. exists (Some s).
      split; [done|]. apply parse_cell_None. by exists s.
    + split; [|done]. intros _.
      apply mapM_None, Exists_exists in E as (c & Hc & Hnone).
      apply parse_cell_None in Hnone as (s & -> & Hnone).
      by exists v, s.
  - split; [done|]. by intros (? & ? & ? & _).
  - split; [done|]. by intros (? & ? & ? & _).
Qed.

Lemma load_None (u : upload) :
  (read_file u ≫= convert_dates parse_date from_epoch) = None
  ↔ rejected parse_date u.
Proof.
  destruct u as [|df]; simpl; [done|]. apply convert_dates_None.
Qed.

Lemma load_files_None (i e v c : upload) :
  load_files parse_date from_epoch i e v c = None
  ↔ rejected parse_date i ∨ rejected parse_date e
    ∨ rejected parse_date v ∨ rejected parse_date c.
Proof.
  rewrite <- !load_None. unfold load_files.
  destruct i as [|fi], e as [|fe], v as [|fv], c as [|fc]; simpl;
    try (split; [intros _|done]; tauto).
  destruct (convert_dates parse_date from_epoch fi),
           (convert_dates parse_date from_epoch fe),
           (convert_dates parse_date from_epoch fv),
           (convert_dates parse_date from_epoch fc); simpl;
    try (split; [intros _|done]; tauto).
  split; [done|]. by intros [|[|[|]]].
Qed.

(** C5 (as the code has it).  With the four files uploaded and the report
    requested, [main] stops before the aggregator exactly when a file is
    unreadable or a date cell cannot be parsed, and reports a read error.
    In every other case [process_data] is called on the four frames as
    read: tables with zero rows or without a required column are not
    stopped before aggregation. *)
Theorem main_stops_only_on_read_errors (i e v c : upload) :
  (main parse_date from_epoch (Some i) (Some e) (Some v) (Some c) true
     = ReadError
   ↔ rejected parse_date i ∨ rejected parse_date e
     ∨ rejected parse_date v ∨ rejected parse_date c)
  ∧ (main parse_date from_epoch (Some i) (Some e) (Some v) (Some c) true
       ≠ ReadError →
     ∃ fi fe fv fc,
       load_files parse_date from_epoch i e v c = Some (fi, fe, fv, fc)
       ∧ main parse_date from_epoch (Some i) (Some e) (Some v) (Some c) true
         = Processed (process_data 0%nat 1%nat 2%nat 3%nat
                        [Frame fi; Frame fe; Frame fv; Frame fc])).
Proof.
  rewrite <- load_files_None. unfold main.
  destruct (load_files parse_date from_epoch i e v c)
    as [[[[fi fe] fv] fc]|]; simpl.
  - split; [done|]. intros _. by exists fi, fe, fv, fc.
  - done.
Qed.
End MainChecks.

(** ** The exporters and the target file *)

Lemma emit_insert (filename : string) (p : part) (ps : list part) (b : bool)
    (d : disk) :
  emit filename p (<[filename := File ps b]> d)
  = (Ok tt, <[filename := File (ps ++ [p]) b]> d).
Proof. unfold emit. by rewrite alter_insert_eq. Qed.

Lemma close_insert (filename : string) (ps : list part) (b : bool) (d : disk) :
  alter (λ f, File (parts f) true) filename (<[filename := File ps b]> d)
  = <[filename := File ps true]> d.
Proof. by rewrite alter_insert_eq. Qed.

(** One statement of the body of the PDF exporter. *)
Ltac export_step :=
  first
    [ rewrite emit_insert
    | rewrite close_insert
    | progress unfold dict_get, number, lift
    | match goal with
      | E : ?x = Some _ |- context [?x] => rewrite E
      | E : ?x = None |- context [?x] => rewrite E
      end
    | progress (lazy beta iota) ].

Ltac export :=
  unfold with_pdf_pages, mbind, M_bind; repeat export_step; simpl app.

(** An entry of a dict that is part of a complete dict. *)
Lemma subdict_lookup {V : Type} (d c : gmap string V) (k : string) (v : V) :
  d ⊆ c → c !! k = Some v → d !! k = None ∨ d !! k = Some v.
Proof.
  intros Hsub Hc. destruct (d !! k) as [w|] eqn:E; [|by left].
  right. apply (lookup_weaken _ _ _ _ E) in Hsub. congruence.
Qed.

(** The outcome of a comparison of two numerals. *)
Ltac outcome :=
  unfold found, chart_keys, total_keys, excel_keys;
  repeat match goal with
         | E : ?x = Some _ |- context [?x] => rewrite E
         | E : ?x = None |- context [?x] => rewrite E
         end;
  simpl; repeat case_decide; try lia; try reflexivity.

Section PdfOutcome.
Context (ti te tiv : Z) (mi me mv cf : pivot) (pnl : Series).
Context (f1 f2 f3 f4 f5 : figure).
Context (data : gmap string datum) (charts : gmap string figure).
Hypothesis Hdata : data ⊆ complete_data ti te tiv mi me mv cf pnl.
Hypothesis Hcharts : charts ⊆ complete_charts f1 f2 f3 f4 f5.

(** The PDF exporter on a part of a complete input: the pages saved before
    the first missing key. *)
Lemma pdf_report_outcome (filename : string) (d : disk) :
  let nc := length (found charts chart_keys) in
  let nt := length (found data total_keys) in
  generate_pdf_report data charts filename d
  = if decide (nc = 5 ∧ nt = 3)%nat
    then (Ok tt,
          <[filename := File (pdf_document f1 f2 f3 f4 f5 ti te tiv) true]> d)
    else (Raise (KeyError (Str (default ""
                   (if decide (nc = 5)%nat then total_keys !! nt
                    else chart_keys !! nc)))),
          <[filename := File (take (1 + nc)
                                (pdf_document f1 f2 f3 f4 f5 ti te tiv))
                             true]> d).
Proof.
  unfold generate_pdf_report.
  destruct (subdict_lookup charts _ "income_by_category" f1 Hcharts eq_refl)
    as [C1|C1]; [export; by outcome|].
  destruct (subdict_lookup charts _ "expenses_by_category" f2 Hcharts eq_refl)
    as [C2|C2]; [export; by outcome|].
  destruct (subdict_lookup charts _ "pnl_over_time" f3 Hcharts eq_refl)
    as [C3|C3]; [export; by outcome|].
  destruct (subdict_lookup charts _ "inventory_by_product" f4 Hcharts eq_refl)
    as [C4|C4]; [export; by outcome|].
  destruct (subdict_lookup charts _ "cash_flow" f5 Hcharts eq_refl)
    as [C5|C5]; [export; by outcome|].
  destruct (subdict_lookup data _ "total_income" (Number ti) Hdata eq_refl)
    as [D1|D1]; [export; by outcome|].
  destruct (subdict_lookup data _ "total_expenses" (Number te) Hdata eq_refl)
    as [D2|D2]; [export; by outcome|].
  destruct (subdict_lookup data _ "total_inventory_value" (Number tiv)
              Hdata eq_refl)
    as [D3|D3]; export; by outcome.
Qed.
End PdfOutcome.

(** One statement of the body of the Excel exporter. *)
Ltac excel_step :=
  first
    [ progress unfold dict_get, lift, write_sheet
    | match goal with
      | E : ?x = Some _ |- context [?x] => rewrite E
      | E : ?x = None |- context [?x] => rewrite E
      | H : ∀ a b, minus _ (Number a) (Number b) = _ |- _ => rewrite H
      | H : ∀ a b c d, summary_to_excel _ _ _ _ _ = _ |- _ => rewrite H
      | H : ∀ name p, to_excel _ name (Table p) = _ |- _ => rewrite H
      | H : ∀ s, pnl_to_excel _ (Monthly s) = _ |- _ => rewrite H
      | H : ∀ p, n_columns _ (Table p) = _ |- _ => rewrite H
      end
    | progress (lazy beta iota) ].

Ltac excel :=
  unfold generate_excel_report, with_excel_writer, mbind, M_bind;
  repeat excel_step; simpl.

Section ExcelOutcome.
Context (pd : pandas) (ti te tiv : Z) (mi me mv cf : pivot) (pnl : Series).
Context (data : gmap string datum).
Hypothesis Hpd : well_known pd.
Hypothesis Hdata : data ⊆ complete_data ti te tiv mi me mv cf pnl.

(** The Excel exporter on a part of a complete dict: the sheets written
    before the first missing key; with all keys there, the whole workbook,
    unless the income table has no column, in which case the workbook cannot
    be closed. *)
Lemma excel_report_outcome (filename : string) (d : disk) :
  let nx := length (found data excel_keys) in
  generate_excel_report pd data filename d
  = if decide (nx = 8)%nat
    then if decide (columns mi = [])
         then (Raise EmptyChartSeries, <[filename := File [] false]> d)
         else (Ok tt,
               <[filename := File (workbook ti te tiv mi me mv cf pnl) true]> d)
    else (Raise (KeyError (Str (default "" (excel_keys !! nx)))),
          <[filename := File (take (nx - 2)
                                (workbook ti te tiv mi me mv cf pnl))
                             true]> d).
Proof.
  destruct Hpd as (Hminus & Hsummary & Hto & Hpnl & Hn).
  destruct (subdict_lookup data _ "total_income" (Number ti) Hdata eq_refl)
    as [D1|D1]; [excel; by outcome|].
  destruct (subdict_lookup data _ "total_expenses" (Number te) Hdata eq_refl)
    as [D2|D2]; [excel; by outcome|].
  destruct (subdict_lookup data _ "total_inventory_value" (Number tiv)
              Hdata eq_refl)
    as [D3|D3]; [excel; by outcome|].
  destruct (subdict_lookup data _ "monthly_income" (Table mi) Hdata eq_refl)
    as [D4|D4]; [excel; by outcome|].
  destruct (subdict_lookup data _ "monthly_expenses" (Table me) Hdata eq_refl)
    as [D5|D5]; [excel; by outcome|].
  destruct (subdict_lookup data _ "monthly_pnl" (Monthly pnl) Hdata eq_refl)
    as [D6|D6]; [excel; by outcome|].
  destruct (subdict_lookup data _ "monthly_inventory_value" (Table mv)
              Hdata eq_refl)
    as [D7|D7]; [excel; by outcome|].
  destruct (subdict_lookup data _ "monthly_cash_flow" (Table cf) Hdata eq_refl)
    as [D8|D8]; [excel; by outcome|].
  excel. unfold workbook.
  destruct (columns mi) as [|c cols]; by outcome.
Qed.
End ExcelOutcome.

(** The Excel writer touches the target path only. *)
Lemma with_excel_writer_target (filename : string) (body : M (list part) unit)
    (d : disk) :
  ∃ f, (with_excel_writer filename body d).2 = <[filename := f]> d.
Proof.
  unfold with_excel_writer. destruct (body []) as [r book].
  destruct (close_workbook book); by eexists.
Qed.

(** C6 (as the code has it).  Each exporter writes straight to the target
    path, replacing what was there, and signals a failure by the exception
    it raises; no other path is touched.  On a dict that lacks some of the
    keys the exporter raises KeyError for the first key it misses, and the
    partial output is not discarded: the target then holds a finalised file
    with exactly the pages saved, or the sheets written, before that key was
    read.  With all keys there the file is complete, except that a workbook
    whose income table has no column cannot be closed: the Excel exporter
    then raises and leaves an empty file.  [main] reads the two files only
    after both exporters have returned, so what it offers for download is
    complete. *)
Theorem exporters_write_in_place
    (pd : pandas) (ti te tiv : Z) (mi me mv cf : pivot) (pnl : Series)
    (f1 f2 f3 f4 f5 : figure)
    (data : gmap string datum) (charts : gmap string figure)
    (filename temp_excel temp_pdf : string) (d : disk) :
  well_known pd →
  data ⊆ complete_data ti te tiv mi me mv cf pnl →
  charts ⊆ complete_charts f1 f2 f3 f4 f5 →
  let document := pdf_document f1 f2 f3 f4 f5 ti te tiv in
  let book := workbook ti te tiv mi me mv cf pnl in
  let nc := length (found charts chart_keys) in
  let nt := length (found data total_keys) in
  let nx := length (found data excel_keys) in
  generate_pdf_report data charts filename d
  = (if decide (nc = 5 ∧ nt = 3)%nat
     then (Ok tt, <[filename := File document true]> d)
     else (Raise (KeyError (Str (default ""
                    (if decide (nc = 5)%nat then total_keys !! nt
                     else chart_keys !! nc)))),
           <[filename := File (take (1 + nc) document) true]> d))
  ∧ generate_excel_report pd data filename d
    = (if decide (nx = 8)%nat
       then if decide (columns mi = [])
            then (Raise EmptyChartSeries, <[filename := File [] false]> d)
            else (Ok tt, <[filename := File book true]> d)
       else (Raise (KeyError (Str (default "" (excel_keys !! nx)))),
             <[filename := File (take (nx - 2) book) true]> d))
  ∧ (temp_excel ≠ temp_pdf →
     ∀ excel_data pdf_data d',
       download_links pd data charts temp_excel temp_pdf d
       = (Ok (excel_data, pdf_data), d') →
       excel_data = File book true ∧ pdf_data = File document true).
Proof.
  intros Hpd Hdata Hcharts document book nc nt nx.
  split.
  { apply (pdf_report_outcome ti te tiv mi me mv cf pnl f1 f2 f3 f4 f5
             data charts Hdata Hcharts). }
  split.
  { apply (excel_report_outcome pd ti te tiv mi me mv cf pnl data Hpd Hdata). }
  intros Hne excel_data pdf_data d'.
  unfold download_links, export_reports, mbind, M_bind.
  rewrite (excel_report_outcome pd ti te tiv mi me mv cf pnl data Hpd Hdata).
  fold nx. destruct (decide (nx = 8)%nat); [|done].
  destruct (decide (columns mi = [])); [done|].
  rewrite (pdf_report_outcome ti te tiv mi me mv cf pnl f1 f2 f3 f4 f5
             data charts Hdata Hcharts).
  fold nc nt. destruct (decide (nc = 5 ∧ nt = 3)%nat); [|done].
  unfold read_bytes.
  rewrite lookup_insert_ne, lookup_insert_eq by done.
  rewrite lookup_insert_eq. by intros [= <- <- _].
Qed.

(** * The claims on concrete inputs *)

Example ex_run :
  process_data 0%nat 1%nat 2%nat 3%nat ex_store = (Ok ex_report, ex_store').
Proof. vm_compute. reflexivity. Qed.



Lemma net_is_inflow_minus_outflow_witness :
  ∃ p, ex_store' !! monthly_cash_flow ex_report = Some (Pivot p)
       ∧ ∀ m, m ∈ index p →
           ∃ i o : Z,
             at_ p m (Str "Inflow") = Some (Val i)
             ∧ at_ p m (Str "Outflow") = Some (Val o)
             ∧ at_ p m (Str "Net") = Some (Val (wrap64 (i - o)))
             ∧ (- 2 ^ 63 ≤ i - o < 2 ^ 63 →
                at_ p m (Str "Net") = Some (Val (i - o))).
Proof.
  apply (net_is_inflow_minus_outflow ex_store 0%nat 1%nat 2%nat 3%nat
           _ _ _ _ eq_refl eq_refl eq_refl eq_refl ex_report ex_store').
  vm_compute. reflexivity.
Defined.

Lemma pivots_are_zero_filled_witness :
  ∃ mi me mv mcf,
    ex_store' !! monthly_income ex_report = Some (Pivot mi)
    ∧ ex_store' !! monthly_expenses ex_report = Some (Pivot me)
    ∧ ex_store' !! monthly_inventory_value ex_report = Some (Pivot mv)
    ∧ ex_store' !! monthly_cash_flow ex_report = Some (Pivot mcf)
    ∧ zero_filled mi transaction_key ex_income
    ∧ zero_filled me transaction_key ex_expenses
    ∧ zero_filled mv stock_key ex_inventory
    ∧ zero_filled mcf cash_flow_key ex_cash.
Proof.
  apply (pivots_are_zero_filled ex_income ex_expenses ex_inventory ex_cash
           ex_store 0%nat 1%nat 2%nat 3%nat
           eq_refl eq_refl eq_refl eq_refl ex_report ex_store').
  - intros x Hx. repeat (apply elem_of_cons in Hx as [->|Hx]);
      try (by apply elem_of_nil in Hx); simpl; tauto.
  - vm_compute. reflexivity.
Defined.

Lemma arguments_not_mutated_witness :
  ex_store' !! 0%nat = Some (Frame (transactions_frame ex_income))
  ∧ ex_store' !! 1%nat = Some (Frame (transactions_frame ex_expenses))
  ∧ ex_store' !! 2%nat = Some (Frame (inventory_frame ex_inventory))
  ∧ ex_store' !! 3%nat = Some (Frame (cash_flow_frame ex_cash))
  ∧ ∀ l o, ex_store !! l = Some o → ex_store' !! l = Some o.
Proof.
  apply (arguments_not_mutated ex_store 0%nat 1%nat 2%nat 3%nat
           _ _ _ _ eq_refl eq_refl eq_refl eq_refl (Ok ex_report) ex_store').
  vm_compute. reflexivity.
Defined.

(** C1 (failing input).  Income in January only and expenses in February
    only: the call returns, and [monthly_pnl] is NaN in both months, where
    income minus expenses is 1000 for January and -400 for February. *)
Theorem monthly_pnl_one_sided_months :
  ∃ h',
    process_data 0%nat 1%nat 2%nat 3%nat one_sided_store
      = (Ok one_sided_report, h')
    ∧ h' !! monthly_income one_sided_report
      = Some (Pivot {| columns := [Str "Product Sales"];
                       rows := [((2023, 1), [Val 1000])] |})
    ∧ h' !! monthly_expenses one_sided_report
      = Some (Pivot {| columns := [Str "Rent"];
                       rows := [((2023, 2), [Val 400])] |})
    ∧ h' !! monthly_pnl one_sided_report
      = Some (SeriesObj [((2023, 1), NaN); ((2023, 2), NaN)]).
Proof. eexists. repeat split; vm_compute; reflexivity. Qed.

(** The scenario of the specification: one income row and one expense row
    in March 2023. *)
Example single_month_scenario :
  ∃ r h',
    process_data 0%nat 1%nat 2%nat 3%nat
      (store_of [Transaction (Date 2023 3 15) "Product Sales" 1000]
                [Transaction (Date 2023 3 15) "Rent" 400]
                ex_inventory ex_cash)
      = (Ok r, h')
    ∧ total_income r = 1000 ∧ total_expenses r = 400
    ∧ h' !! monthly_pnl r = Some (SeriesObj [((2023, 3), Val 600)]).
Proof. do 2 eexists. repeat split; vm_compute; reflexivity. Qed.

Lemma empty_inventory_total_is_zero_witness :
  ∃ r h',
    process_data 0%nat 1%nat 2%nat 3%nat
      (store_of ex_income ex_expenses [] ex_cash) = (Ok r, h')
    ∧ total_inventory_value r = 0
    ∧ total_income r = total_income ex_report
    ∧ total_expenses r = total_expenses ex_report.
Proof.
  apply (empty_inventory_total_is_zero
           (transactions_frame ex_income) (transactions_frame ex_expenses)
           (inventory_frame []) (cash_flow_frame ex_cash)
           (store_of ex_income ex_expenses [] ex_cash)
           0%nat 1%nat 2%nat 3%nat eq_refl eq_refl eq_refl eq_refl
           (inventory_frame ex_inventory) ex_store 0%nat 1%nat 2%nat 3%nat
           ex_report ex_store').
  - repeat split; try done; eexists; (split; [reflexivity|by left]).
  - reflexivity.
  - reflexivity.
  - reflexivity.
  - reflexivity.
  - vm_compute. reflexivity.
Defined.

Lemma cash_flow_needs_both_types_witness :
  ∃ ext,
    process_data 0%nat 1%nat 2%nat 3%nat
      (store_of ex_income ex_expenses ex_inventory inflow_only)
    = (Raise (KeyError (Str "Outflow")),
       store_of ex_income ex_expenses ex_inventory inflow_only ++ ext)
    ∧ length ext = 5%nat.
Proof.
  apply (cash_flow_needs_both_types ex_income ex_expenses ex_inventory
           inflow_only
           (store_of ex_income ex_expenses ex_inventory inflow_only)
           0%nat 1%nat 2%nat 3%nat eq_refl eq_refl eq_refl eq_refl).
  intros [_ Hout].
  apply elem_of_cons in Hout as [?|Hout]; [done|].
  by apply elem_of_nil in Hout.
Defined.

(** C5 (counterexample).  An income file with a header and no rows is not
    stopped: the aggregator is called and returns.  An income file without
    the amount column is not stopped either: the aggregator is called, and
    it is the aggregator that raises. *)
Lemma empty_and_incomplete_tables_reach_aggregator :
  (∃ r h',
     main parse_iso epoch_start
       (Some (Parsed csv_header_only)) (Some (Parsed csv_expenses))
       (Some (Parsed csv_inventory)) (Some (Parsed csv_cash)) true
     = Processed (Ok r, h'))
  ∧ (∃ h',
       main parse_iso epoch_start
         (Some (Parsed csv_no_amount)) (Some (Parsed csv_expenses))
         (Some (Parsed csv_inventory)) (Some (Parsed csv_cash)) true
       = Processed (Raise (KeyError (Str "amount")), h')).
Proof.
  split.
  - do 2 eexists. vm_compute. reflexivity.
  - eexists. vm_compute. reflexivity.
Qed.

(** An unparseable date stops [main] with a read error. *)
Example bad_date_is_a_read_error :
  main parse_iso epoch_start
    (Some (Parsed csv_income)) (Some (Parsed csv_bad_date))
    (Some (Parsed csv_inventory)) (Some (Parsed csv_cash)) true
  = ReadError.
Proof. reflexivity. Qed.

Lemma exporters_write_in_place_witness :
  let mi := {| columns := [Str "Product Sales"];
               rows := [((2023, 3), [Val 1000])] |} in
  let me := {| columns := [Str "Rent"]; rows := [((2023, 3), [Val 400])] |} in
  let mv := {| columns := [Str "Product A"];
               rows := [((2023, 3), [Val 10])] |} in
  let cf := {| columns := [Str "Inflow"; Str "Outflow"; Str "Net"];
               rows := [((2023, 3), [Val 50; Val 20; Val 30])] |} in
  let pnl := [((2023, 3), Val 600)] in
  let data := complete_data 1000 400 10 mi me mv cf pnl in
  let document :=
    pdf_document (Figure "Monthly Income by Category")
      (Figure "Monthly Expenses by Category") (Figure "Monthly Profit & Loss")
      (Figure "Monthly Inventory Value by Product")
      (Figure "Monthly Cash Flow") 1000 400 10 in
  let book := workbook 1000 400 10 mi me mv cf pnl in
  generate_pdf_report data ex_charts "report.pdf" ∅
  = (Ok tt, {[ "report.pdf" := File document true ]})
  ∧ generate_excel_report ex_pandas data "report.xlsx" ∅
    = (Ok tt, {[ "report.xlsx" := File book true ]})
  ∧ ("report.xlsx" ≠ "report.pdf" →
     ∀ excel_data pdf_data d',
       download_links ex_pandas data ex_charts "report.xlsx" "report.pdf" ∅
       = (Ok (excel_data, pdf_data), d') →
       excel_data = File book true ∧ pdf_data = File document true).
Proof.
  intros mi me mv cf pnl data document book.
  assert (well_known ex_pandas) as Hpd by (repeat split; reflexivity).
  assert (data ⊆ complete_data 1000 400 10 mi me mv cf pnl) as Hdata by done.
  assert (ex_charts
          ⊆ complete_charts (Figure "Monthly Income by Category")
              (Figure "Monthly Expenses by Category")
              (Figure "Monthly Profit & Loss")
              (Figure "Monthly Inventory Value by Product")
              (Figure "Monthly Cash Flow")) as Hcharts by done.
  pose proof (exporters_write_in_place ex_pandas 1000 400 10 mi me mv cf pnl
                _ _ _ _ _ data ex_charts "report.pdf" "report.xlsx"
                "report.pdf" ∅ Hpd Hdata Hcharts) as Hpdf.
  pose proof (exporters_write_in_place ex_pandas 1000 400 10 mi me mv cf pnl
                _ _ _ _ _ data ex_charts "report.xlsx" "report.xlsx"
                "report.pdf" ∅ Hpd Hdata Hcharts) as Hxlsx.
  cbv zeta in Hpdf, Hxlsx.
  destruct Hpdf as (Hpdf & _ & Hlinks), Hxlsx as (_ & Hxlsx & _).
  split; [exact Hpdf|]. split; [exact Hxlsx|exact Hlinks].
Defined.

(** C6 (counterexample).  The P&L chart is missing: the document exporter
    raises after three pages, and the target path, which held the complete
    report of an earlier run, now holds a finalised file of three pages.  The
    income table is missing: the spreadsheet exporter raises after the
    summary sheet and leaves a finalised workbook of one sheet. *)
Lemma failed_export_leaves_partial_file :
  (let out := generate_pdf_report data_without_income charts_without_pnl
                "report.pdf" {[ "report.pdf" := earlier_report ]} in
   out.1 = Raise (KeyError (Str "pnl_over_time"))
   ∧ out.2 !! "report.pdf"
     = Some (File [ TitlePage;
                    FigurePage (Figure "Monthly Income by Category");
                    FigurePage (Figure "Monthly Expenses by Category") ]
                  true))
  ∧ (let out := generate_excel_report ex_pandas data_without_income
                  "report.xlsx" ∅ in
     out.1 = Raise (KeyError (Str "monthly_income"))
     ∧ out.2 !! "report.xlsx"
       = Some (File [ SummarySheet 1000 400 600 10 ] true)).
Proof. repeat split; vm_compute; reflexivity. Qed.


(** * Further properties of the code *)

(** ** The orders are total orders *)

Lemma string_leb_trans (s t u : string) :
  String.leb s t = true → String.leb t u = true → String.leb s u = true.
Proof.
  unfold String.leb. revert t u.
  induction s as [|a s IH]; intros [|b t] [|c u]; simpl; try done.
  unfold Ascii.compare.
  destruct (N.compare_spec (N_of_ascii a) (N_of_ascii b)) as [Eab|Lab|Gab];
    destruct (N.compare_spec (N_of_ascii b) (N_of_ascii c)) as [Ebc|Lbc|Gbc];
    try done.
  - rewrite Eab, Ebc, N.compare_refl. apply IH.
  - intros _ _. rewrite Eab. by apply N.compare_lt_iff in Lbc as ->.
  - intros _ _. rewrite <- Ebc. by apply N.compare_lt_iff in Lab as ->.
  - intros _ _.
    assert (N_of_ascii a < N_of_ascii c)%N as Hac by lia.
    by apply N.compare_lt_iff in Hac as ->.
Qed.

Lemma period_leb_true (a b : period) :
  period_leb a b = true ↔ a.1 < b.1 ∨ (a.1 = b.1 ∧ a.2 ≤ b.2).
Proof.
  unfold period_leb.
  rewrite orb_true_iff, andb_true_iff, Z.ltb_lt, Z.eqb_eq, Z.leb_le. done.
Qed.

Lemma date_leb_true (a b : date) :
  date_leb a b = true
  ↔ year a < year b
    ∨ (year a = year b
       ∧ (month a < month b ∨ (month a = month b ∧ day a ≤ day b))).
Proof.
  unfold date_leb.
  repeat (rewrite orb_true_iff || rewrite andb_true_iff).
  by rewrite !Z.ltb_lt, !Z.eqb_eq, Z.leb_le.
Qed.

#[global] Instance period_le_trans : Transitive period_le.
Proof.
  intros [a1 a2] [b1 b2] [c1 c2]. unfold period_le.
  rewrite !period_leb_true. simpl. lia.
Qed.

#[global] Instance period_le_total : Total period_le.
Proof.
  intros [a1 a2] [b1 b2]. unfold period_le.
  rewrite !period_leb_true. simpl. lia.
Qed.

#[global] Instance period_le_antisym : AntiSymm (=) period_le.
Proof.
  intros [a1 a2] [b1 b2]. unfold period_le.
  rewrite !period_leb_true. simpl. intros ??. f_equal; lia.
Qed.

#[global] Instance label_le_trans : Transitive label_le.
Proof.
  intros [s|x|d] [t|y|e] [u|z|f]; unfold label_le; simpl; try done.
  - apply string_leb_trans.
  - rewrite !Z.leb_le. lia.
  - rewrite !date_leb_true. lia.
Qed.

#[global] Instance label_le_total : Total label_le.
Proof.
  intros [s|x|d] [t|y|e]; unfold label_le; simpl; auto.
  - apply String.leb_total.
  - rewrite !Z.leb_le. lia.
  - rewrite !date_leb_true. lia.
Qed.

#[global] Instance label_le_antisym : AntiSymm (=) label_le.
Proof.
  intros [s|x|d] [t|y|e]; unfold label_le; simpl; try done.
  - intros ??. f_equal. by apply String.leb_antisym.
  - rewrite !Z.leb_le. intros ??. f_equal. lia.
  - rewrite !date_leb_true. destruct d, e; simpl. intros ??.
    do 2 f_equal; lia.
Qed.

Lemma key_leb_true (a b : key) :
  key_leb a b = true
  ↔ (a.1 = b.1 ∧ label_le a.2 b.2) ∨ (a.1 ≠ b.1 ∧ period_le a.1 b.1).
Proof.
  unfold key_leb, label_le, period_le. case_decide as E.
  - split; [by left|]. by intros [[_ ?]|[? _]].
  - split; [by right|]. by intros [[? _]|[_ ?]].
Qed.

#[global] Instance key_le_trans : Transitive key_le.
Proof.
  intros [a1 a2] [b1 b2] [c1 c2]. unfold key_le.
  rewrite !key_leb_true. simpl.
  intros [[-> Hab]|[Nab Hab]] [[-> Hbc]|[Nbc Hbc]].
  - left. split; [done|]. by etrans.
  - by right.
  - by right.
  - destruct (decide (a1 = c1)) as [->|Nac].
    + destruct Nab. by apply (anti_symm period_le).
    + right. split; [done|]. by etrans.
Qed.

#[global] Instance key_le_total : Total key_le.
Proof.
  intros [a1 a2] [b1 b2]. unfold key_le. rewrite !key_leb_true. simpl.
  destruct (decide (a1 = b1)) as [->|Nab].
  - destruct (total label_le a2 b2); auto.
  - destruct (total period_le a1 b1); [auto|].
    right. right. split; [congruence|done].
Qed.

#[global] Instance key_le_antisym : AntiSymm (=) key_le.
Proof.
  intros [a1 a2] [b1 b2]. unfold key_le. rewrite !key_leb_true. simpl.
  intros [[-> Hab]|[Nab Hab]] [[E Hba]|[Nba Hba]]; try done.
  - f_equal. by apply (anti_symm label_le).
  - destruct Nab. by apply (anti_symm period_le).
Qed.

(** ** Insertion sort sorts *)

Section SortCorrect.
Context {A : Type} (leb : A → A → bool).
Let R : relation A := λ a b, leb a b = true.
Context `{!Transitive R, !Total R}.

Lemma insert_sorted_sorted (x : A) (l : list A) :
  StronglySorted R l → StronglySorted R (insert_sorted leb x l).
Proof.
  induction 1 as [|y t Ht IH Hy]; simpl.
  - repeat constructor.
  - destruct (leb x y) eqn:Exy.
    + constructor; [by constructor|].
      constructor; [done|].
      eapply Forall_impl; [exact Hy|]. intros z Hz. by trans y.
    + constructor; [done|].
      rewrite insert_sorted_perm. constructor; [|done].
      destruct (total R x y) as [Hxy|Hyx]; [|done].
      unfold R in Hxy. congruence.
Qed.

Lemma sort_sorted (l : list A) : StronglySorted R (sort leb l).
Proof.
  induction l as [|x t IH]; simpl; [constructor|].
  by apply insert_sorted_sorted.
Qed.

Context `{EqDecision A, !AntiSymm (=) R}.

Lemma unique_sorted_sorted (l : list A) : StronglySorted R (unique_sorted leb l).
Proof. apply sort_sorted. Qed.

(** The sorted key list depends on the set of keys only. *)
Lemma unique_sorted_ext (l k : list A) :
  (∀ x, x ∈ l ↔ x ∈ k) → unique_sorted leb l = unique_sorted leb k.
Proof.
  intros Hlk. apply (StronglySorted_unique R);
    [apply unique_sorted_sorted..|].
  apply NoDup_Permutation; [apply NoDup_unique_sorted..|].
  intros x. by rewrite !elem_of_unique_sorted.
Qed.
End SortCorrect.

(** ** What the cells, the index and the columns of a table are *)

Lemma Zsum_perm (l k : list Z) : l ≡ₚ k → Zsum l = Zsum k.
Proof.
  induction 1 as [|x l k _ IH|x y l|l k j _ IH1 _ IH2]; zsum; lia.
Qed.

Section PivotOfFacts.
Context {A : Type} (k : A → key) (v : A → Z).

Lemma group_total_group_sum (t : list A) (m : period) (c : label) :
  group_total ((λ x, (k x, v x)) <$> t) (m, c) = group_sum k v t m c.
Proof.
  unfold group_sum. induction t as [|x t IH]; [done|].
  rewrite fmap_cons, group_total_cons, filter_cons, IH. simpl.
  destruct (decide (k x = (m, c))); by zsum.
Qed.

Lemma pivot_of_sums_groups (t : list A) : sums_groups (pivot_of k v t) k v t.
Proof.
  intros m c Hm Hc. rewrite at_pivot_of by done.
  by rewrite group_total_group_sum.
Qed.

Lemma pivot_of_keyed_by (t : list A) : keyed_by (pivot_of k v t) k t.
Proof.
  split; [apply elem_of_index_pivot_of|].
  split; [apply elem_of_columns_pivot_of|].
  split; [apply NoDup_index_pivot_of|].
  split; [apply NoDup_columns_pivot_of|].
  split.
  - unfold pivot_of. rewrite unstack_tabulate, index_tabulate.
    apply (unique_sorted_sorted period_leb).
  - apply (unique_sorted_sorted label_leb).
Qed.

Lemma group_sum_perm (t t' : list A) (m : period) (c : label) :
  t ≡ₚ t' → group_sum k v t m c = group_sum k v t' m c.
Proof. intros Ht. unfold group_sum. apply Zsum_perm. by rewrite Ht. Qed.

Lemma index_pivot_of_eq (t : list A) :
  index (pivot_of k v t)
  = unique_sorted period_leb ((groupby_sum (k <$> t) (v <$> t)).*1.*1).
Proof. unfold pivot_of. by rewrite unstack_tabulate, index_tabulate. Qed.

Lemma columns_pivot_of_eq (t : list A) :
  columns (pivot_of k v t)
  = unique_sorted label_leb ((groupby_sum (k <$> t) (v <$> t)).*1.*2).
Proof. done. Qed.

Lemma elem_of_group_months (t : list A) (m : period) :
  m ∈ (groupby_sum (k <$> t) (v <$> t)).*1.*1 ↔ ∃ x, x ∈ t ∧ (k x).1 = m.
Proof.
  rewrite <- elem_of_index_pivot_of, index_pivot_of_eq.
  by rewrite elem_of_unique_sorted.
Qed.

Lemma elem_of_group_labels (t : list A) (c : label) :
  c ∈ (groupby_sum (k <$> t) (v <$> t)).*1.*2 ↔ ∃ x, x ∈ t ∧ (k x).2 = c.
Proof.
  rewrite <- elem_of_columns_pivot_of, columns_pivot_of_eq.
  by rewrite elem_of_unique_sorted.
Qed.

(** The table does not depend on the order of the records. *)
Lemma pivot_of_perm (t t' : list A) :
  t ≡ₚ t' → pivot_of k v t = pivot_of k v t'.
Proof.
  intros Ht.
  assert (∀ x, x ∈ t ↔ x ∈ t') as Hin by (intros x; by rewrite Ht).
  assert (columns (pivot_of k v t) = columns (pivot_of k v t')) as Hcols.
  { rewrite !columns_pivot_of_eq.
    apply (unique_sorted_ext label_leb). intros c.
    rewrite !elem_of_group_labels.
    split; intros (x & Hx & E); exists x; (split; [by apply Hin|done]). }
  assert (index (pivot_of k v t) = index (pivot_of k v t')) as Hidx.
  { rewrite !index_pivot_of_eq.
    apply (unique_sorted_ext period_leb). intros m.
    rewrite !elem_of_group_months.
    split; intros (x & Hx & E); exists x; (split; [by apply Hin|done]). }
  rewrite (pivot_of_tabulate k v t), (pivot_of_tabulate k v t').
  rewrite Hcols, Hidx. apply tabulate_ext. intros m c.
  rewrite !group_total_group_sum. f_equal. by apply group_sum_perm.
Qed.

Lemma group_sum_nonneg (t : list A) (m : period) (c : label) :
  (∀ x, x ∈ t → 0 ≤ v x) → 0 ≤ group_sum k v t m c.
Proof.
  intros Hv. unfold group_sum. induction t as [|x t IH]; [done|].
  rewrite filter_cons.
  assert (0 ≤ v x) by apply Hv, list_elem_of_here.
  assert (0 ≤ Zsum (v <$> filter (λ x, k x = (m, c)) t)).
  { apply IH. intros y Hy. by apply Hv, list_elem_of_further. }
  destruct (decide (k x = (m, c))); zsum; lia.
Qed.

Lemma group_sum_le (t : list A) (m : period) (c : label) :
  (∀ x, x ∈ t → 0 ≤ v x) → group_sum k v t m c ≤ Zsum (v <$> t).
Proof.
  intros Hv. unfold group_sum. induction t as [|x t IH]; [done|].
  rewrite filter_cons.
  assert (0 ≤ v x) by apply Hv, list_elem_of_here.
  assert (Zsum (v <$> filter (λ x, k x = (m, c)) t) ≤ Zsum (v <$> t)).
  { apply IH. intros y Hy. by apply Hv, list_elem_of_further. }
  destruct (decide (k x = (m, c))); zsum; lia.
Qed.
End PivotOfFacts.


Lemma Zsum_minus {A : Type} (f g : A → Z) (l : list A) :
  Zsum ((λ x, f x - g x) <$> l) = Zsum (f <$> l) - Zsum (g <$> l).
Proof. induction l as [|x t IH]; zsum; lia. Qed.

Lemma isum_congr {A : Type} (f g : A → Z) (l : list A) :
  (∀ x, x ∈ l → wrap64 (f x) = wrap64 (g x)) →
  isum (f <$> l) = isum (g <$> l).
Proof.
  intros Hfg. rewrite <- (isum_wrap f), <- (isum_wrap g). f_equal.
  induction l as [|x t IH]; [done|]. csimpl.
  rewrite (Hfg x) by apply list_elem_of_here.
  rewrite IH; [done|]. intros y Hy. by apply Hfg, list_elem_of_further.
Qed.

Lemma group_sum_wrap {A : Type} (k : A → key) (f : A → Z) (t : list A)
    (m : period) (c : label) :
  wrap64 (group_sum k (λ x, wrap64 (f x)) t m c) = wrap64 (group_sum k f t m c).
Proof. exact (isum_wrap f _). Qed.

Lemma isum_minus {A : Type} (f g : A → Z) (l : list A) :
  isum ((λ x, f x - g x) <$> l) = wrap64 (isum (f <$> l) - isum (g <$> l)).
Proof. unfold isum. by rewrite Zsum_minus, wrap64_sub. Qed.

Lemma Zsum_nonneg (l : list Z) : (∀ x, x ∈ l → 0 ≤ x) → 0 ≤ Zsum l.
Proof.
  induction l as [|x t IH]; intros Hl; zsum; [done|].
  assert (0 ≤ x) by apply Hl, list_elem_of_here.
  assert (0 ≤ Zsum t); [|lia].
  apply IH. intros y Hy. by apply Hl, list_elem_of_further.
Qed.

Lemma at_Some_elem (p : pivot) (m : period) (c : label) (v : value) :
  at_ p m c = Some v → m ∈ index p ∧ c ∈ columns p.
Proof.
  unfold at_, index.
  destruct (assoc m (rows p)) as [row|] eqn:Hrow; simpl; [|done].
  destruct (position c (columns p)) as [i|] eqn:Hpos; simpl; [|done].
  intros _. split.
  - apply list_elem_of_fmap. exists (m, row).
    split; [done|by apply assoc_Some_elem].
  - apply position_lookup in Hpos. by eapply list_elem_of_lookup_2.
Qed.

Lemma columns_setitem (p : pivot) (c : label) (s : Series) :
  columns (pivot_setitem p c s)
  = if decide (c ∈ columns p) then columns p else columns p ++ [c].
Proof.
  unfold pivot_setitem.
  destruct (position c (columns p)) as [i|] eqn:Hpos; simpl.
  - rewrite decide_True; [done|].
    apply position_lookup in Hpos. by eapply list_elem_of_lookup_2.
  - rewrite decide_False; [done|]. by apply position_None.
Qed.

(** The cells of one column add up to the amounts of that label. *)
Lemma sum_column {A : Type} (k : A → key) (v : A → Z) (t : list A)
    (idx : list period) (c : label) :
  NoDup idx → (∀ x, x ∈ t → (k x).1 ∈ idx) →
  Zsum ((λ m, group_sum k v t m c) <$> idx)
  = Zsum (v <$> filter (λ x, (k x).2 = c) t).
Proof.
  intros Hidx. induction t as [|x t IH]; intros Hin.
  - rewrite (Zsum_ext _ (λ _, 0)); [apply Zsum_zero|done].
  - rewrite (Zsum_ext _
      (λ m, (if decide (m = (k x).1)
             then (if decide ((k x).2 = c) then v x else 0) else 0)
            + group_sum k v t m c)).
    + rewrite Zsum_plus, IH, Zsum_indicator, filter_cons by
        (done || (intros y Hy; by apply Hin, list_elem_of_further)).
      rewrite decide_True by apply Hin, list_elem_of_here.
      destruct (decide ((k x).2 = c)); by zsum.
    + intros m _. unfold group_sum. rewrite filter_cons.
      destruct (k x) as [m0 c0]; simpl.
      repeat case_decide; zsum; congruence || lia.
Qed.

(** The int64 sum of the entries of [a - b] when both tables have the same
    index. *)
Lemma sum_series_sub (cp cq : list label) (idx : list period)
    (gp gq : period → label → Z) :
  let s := series_sub (sum_axis1 (tabulate cp idx gp))
                      (sum_axis1 (tabulate cq idx gq)) in
  isum (skipna <$> s.*2)
  = wrap64 (cells_sum (tabulate cp idx gp) - cells_sum (tabulate cq idx gq))
  ∧ NaN ∉ s.*2.
Proof.
  intros s. unfold s.
  rewrite !sum_axis1_tabulate, series_sub_same_index, !cells_sum_tabulate.
  rewrite <- !list_fmap_compose. split.
  - change (isum ((λ m, wrap64 (isum (gp m <$> cp) - isum (gq m <$> cq)))
                    <$> idx)
            = wrap64 (isum ((λ m, Zsum (gp m <$> cp)) <$> idx)
                      - isum ((λ m, Zsum (gq m <$> cq)) <$> idx))).
    rewrite (isum_wrap (λ m, isum (gp m <$> cp) - isum (gq m <$> cq))).
    rewrite isum_minus. f_equal. f_equal.
    + apply (isum_wrap (λ m, Zsum (gp m <$> cp))).
    + apply (isum_wrap (λ m, Zsum (gq m <$> cq))).
  - by intros (m & Hnan & Hm)%list_elem_of_fmap.
Qed.

(** The cells of the returned cash-flow table in one month. *)
Lemma cash_flow_cells (income expenses : list transaction)
    (inventory : list stock) (cash : list cash_flow) (m : period) :
  "Inflow" ∈ f_type <$> cash → "Outflow" ∈ f_type <$> cash →
  m ∈ index (cash_flow_of (tables_of income expenses inventory cash)) →
  let mcf := cash_flow_of (tables_of income expenses inventory cash) in
  let total ty := group_sum cash_flow_key f_amount cash m (Str ty) in
  at_ mcf m (Str "Inflow") = Some (Val (wrap64 (total "Inflow")))
  ∧ at_ mcf m (Str "Outflow") = Some (Val (wrap64 (total "Outflow")))
  ∧ at_ mcf m (Str "Net")
    = Some (Val (wrap64 (total "Inflow" - total "Outflow"))).
Proof.
  intros Hin Hout Hm mcf total. unfold mcf, total, cash_flow_of in *.
  simpl in *.
  set (P := pivot_of cash_flow_key f_amount cash) in *.
  set (g := λ (m : period) (c : label),
         wrap64 (group_total
                   ((λ x, (cash_flow_key x, f_amount x)) <$> cash) (m, c))).
  assert (pivot_getitem (tabulate (columns P) (index P) g) (Str "Inflow")
          = Ok (flow_series cash "Inflow")) as Hi.
  { apply getitem_tabulate. by apply cash_flow_column. }
  assert (pivot_getitem (tabulate (columns P) (index P) g) (Str "Outflow")
          = Ok (flow_series cash "Outflow")) as Ho.
  { apply getitem_tabulate. by apply cash_flow_column. }
  pose proof (net_column _ _ _ _ _ Hi Ho m) as Hnet.
  subst g P. rewrite <- pivot_of_tabulate in Hnet.
  rewrite <- !group_total_group_sum, <- wrap64_sub. by apply Hnet.
Qed.

(** ** The aggregator on the tables of the data model, cell by cell *)

Section DataModelFacts.
Context (income expenses : list transaction).
Context (inventory : list stock) (cash : list cash_flow).
Context (h : heap) (income_df expense_df inventory_df cash_flow_df : loc).
Hypothesis Hincome : h !! income_df = Some (Frame (transactions_frame income)).
Hypothesis Hexpense : h !! expense_df = Some (Frame (transactions_frame expenses)).
Hypothesis Hinventory : h !! inventory_df = Some (Frame (inventory_frame inventory)).
Hypothesis Hcash : h !! cash_flow_df = Some (Frame (cash_flow_frame cash)).

Local Abbreviation run := (process_data income_df expense_df inventory_df cash_flow_df h).
Local Abbreviation model := (tables_of income expenses inventory cash).

Lemma run_Ok (r : financial_data) (h' : heap) :
  run = (Ok r, h') →
  "Inflow" ∈ f_type <$> cash ∧ "Outflow" ∈ f_type <$> cash
  ∧ r = refs_of (length h) model ∧ h' = h ++ objects_of model.
Proof.
  by apply (process_data_tables_Ok income expenses inventory cash h
              income_df expense_df inventory_df cash_flow_df).
Qed.

(** X1.  Each cell of the income and expense tables is the int64 sum of the
    amounts of the rows of that month and category. *)
Theorem monthly_amounts_are_group_sums (r : financial_data) (h' : heap) :
  run = (Ok r, h') →
  ∃ mi me,
    h' !! monthly_income r = Some (Pivot mi)
    ∧ h' !! monthly_expenses r = Some (Pivot me)
    ∧ sums_groups mi transaction_key t_amount income
    ∧ sums_groups me transaction_key t_amount expenses.
Proof.
  intros (_ & _ & -> & ->)%run_Ok.
  destruct (lookup_objects h model) as (Hmi & Hme & _).
  do 2 eexists. repeat split; try done; apply pivot_of_sums_groups.
Qed.

(** X2.  Each cell of the inventory table is the int64 sum of
    quantity x cost_price over the rows of that month and product; the
    selling price plays no part. *)
Theorem monthly_inventory_is_quantity_times_cost (r : financial_data) (h' : heap) :
  run = (Ok r, h') →
  ∃ mv,
    h' !! monthly_inventory_value r = Some (Pivot mv)
    ∧ sums_groups mv stock_key (λ x, s_quantity x * s_cost_price x) inventory.
Proof.
  intros (_ & _ & -> & ->)%run_Ok.
  destruct (lookup_objects h model) as (_ & _ & _ & Hmv & _).
  eexists. split; [done|]. intros m c Hm Hc. simpl in *.
  rewrite (pivot_of_sums_groups stock_key stock_value) by done.
  do 2 f_equal.
  apply (group_sum_wrap stock_key (λ x, s_quantity x * s_cost_price x)).
Qed.

(** X3.  The months and columns of the income, expense and inventory tables
    are the months and categories (products) that occur in the input, each
    once, in ascending order. *)
Theorem tables_are_keyed_by_input (r : financial_data) (h' : heap) :
  run = (Ok r, h') →
  ∃ mi me mv,
    h' !! monthly_income r = Some (Pivot mi)
    ∧ h' !! monthly_expenses r = Some (Pivot me)
    ∧ h' !! monthly_inventory_value r = Some (Pivot mv)
    ∧ keyed_by mi transaction_key income
    ∧ keyed_by me transaction_key expenses
    ∧ keyed_by mv stock_key inventory.
Proof.
  intros (_ & _ & -> & ->)%run_Ok.
  destruct (lookup_objects h model) as (Hmi & Hme & _ & Hmv & _).
  do 3 eexists. repeat split; try done; apply pivot_of_keyed_by.
Qed.

(** X4.  The three totals are the int64 sums over the raw tables, and the
    expense and inventory totals are also the int64 sums of all cells of
    their tables. *)
Theorem totals_reconcile (r : financial_data) (h' : heap) :
  run = (Ok r, h') →
  ∃ me mv,
    h' !! monthly_expenses r = Some (Pivot me)
    ∧ h' !! monthly_inventory_value r = Some (Pivot mv)
    ∧ total_income r = isum (t_amount <$> income)
    ∧ total_expenses r = isum (t_amount <$> expenses)
    ∧ total_inventory_value r
      = isum ((λ x, s_quantity x * s_cost_price x) <$> inventory)
    ∧ cells_sum me = total_expenses r
    ∧ cells_sum mv = total_inventory_value r.
Proof.
  intros (_ & _ & -> & ->)%run_Ok.
  destruct (lookup_objects h model) as (_ & Hme & _ & Hmv & _).
  do 2 eexists. repeat split; try done; simpl.
  - apply (isum_wrap (λ x, s_quantity x * s_cost_price x)).
  - apply cells_sum_pivot_of.
  - apply cells_sum_pivot_of.
Qed.

(** X5.  In every month of the returned cash-flow table, Inflow and Outflow
    are the int64 sums of the amounts of the rows of that type, and Net is
    their difference in int64. *)
Theorem monthly_cash_flow_is_sum_by_type (r : financial_data) (h' : heap) :
  run = (Ok r, h') →
  ∃ mcf,
    h' !! monthly_cash_flow r = Some (Pivot mcf)
    ∧ ∀ m, m ∈ index mcf →
        let total ty := group_sum cash_flow_key f_amount cash m (Str ty) in
        at_ mcf m (Str "Inflow") = Some (Val (wrap64 (total "Inflow")))
        ∧ at_ mcf m (Str "Outflow") = Some (Val (wrap64 (total "Outflow")))
        ∧ at_ mcf m (Str "Net")
          = Some (Val (wrap64 (total "Inflow" - total "Outflow"))).
Proof.
  intros (Hin & Hout & -> & ->)%run_Ok.
  destruct (lookup_objects h model) as (_ & _ & _ & _ & Hmcf).
  eexists. split; [done|]. intros m Hm. by apply cash_flow_cells.
Qed.

(** X6.  The months of the returned cash-flow table are the months of the
    input; its columns are the flow types of the input and Net; Net is the
    last column unless the input has a flow type of that name. *)
Theorem monthly_cash_flow_shape (r : financial_data) (h' : heap) :
  run = (Ok r, h') →
  ∃ mcf,
    h' !! monthly_cash_flow r = Some (Pivot mcf)
    ∧ (∀ m, m ∈ index mcf ↔ ∃ x, x ∈ cash ∧ month_of (f_date x) = m)
    ∧ (∀ c, c ∈ columns mcf
            ↔ c = Str "Net" ∨ ∃ x, x ∈ cash ∧ Str (f_type x) = c)
    ∧ ("Net" ∉ f_type <$> cash →
       ∃ types, columns mcf = types ++ [Str "Net"]
                ∧ StronglySorted label_le types ∧ Str "Net" ∉ types).
Proof.
  intros (Hin & Hout & -> & ->)%run_Ok.
  destruct (lookup_objects h model) as (_ & _ & _ & _ & Hmcf).
  eexists. split; [done|]. unfold cash_flow_of; simpl.
  rewrite index_setitem, columns_setitem.
  destruct (pivot_of_keyed_by cash_flow_key f_amount cash)
    as (Hidx & Hcols & _ & _ & _ & Hsorted).
  repeat split.
  - by intros ?%Hidx.
  - by intros ?%Hidx.
  - case_decide as Hnet.
    + intros Hc. right. by apply Hcols.
    + intros [Hc| ->%list_elem_of_singleton]%elem_of_app; [|by left].
      right. by apply Hcols.
  - case_decide as Hnet.
    + intros [->|Hc]; [done|by apply Hcols].
    + intros [->|Hc]; apply elem_of_app.
      * right. by apply list_elem_of_singleton.
      * left. by apply Hcols.
  - intros Hno.
    assert (Str "Net" ∉ columns (pivot_of cash_flow_key f_amount cash)) as Hnc
      by (by rewrite cash_flow_column).
    rewrite decide_False by done. by eexists.
Qed.

(** X7.  When income and expenses cover the same months, [monthly_pnl] has no
    NaN and its entries add up, in int64, to total income minus total
    expenses, the net profit of the summary. *)
Theorem monthly_pnl_sums_to_net_profit (r : financial_data) (h' : heap) :
  (∀ m, (∃ x, x ∈ income ∧ month_of (t_date x) = m)
        ↔ (∃ y, y ∈ expenses ∧ month_of (t_date y) = m)) →
  run = (Ok r, h') →
  ∃ pnl,
    h' !! monthly_pnl r = Some (SeriesObj pnl)
    ∧ (NaN ∉ pnl.*2)
    ∧ isum (skipna <$> pnl.*2) = wrap64 (total_income r - total_expenses r).
Proof.
  intros Hsame (_ & _ & -> & ->)%run_Ok.
  destruct (lookup_objects h model) as (_ & _ & Hpnl & _).
  eexists. split; [done|]. unfold pnl_of; simpl.
  assert (index (pivot_of transaction_key t_amount expenses)
          = index (pivot_of transaction_key t_amount income)) as Hidx.
  { rewrite !index_pivot_of_eq.
    apply (unique_sorted_ext period_leb). intros m.
    rewrite !elem_of_group_months. symmetry. apply Hsame. }
  pose proof (pivot_of_tabulate transaction_key t_amount income) as Ei.
  pose proof (pivot_of_tabulate transaction_key t_amount expenses) as Ee.
  rewrite Hidx in Ee.
  destruct (sum_series_sub
              (columns (pivot_of transaction_key t_amount income))
              (columns (pivot_of transaction_key t_amount expenses))
              (index (pivot_of transaction_key t_amount income))
              (λ m c, wrap64 (group_total
                 ((λ x, (transaction_key x, t_amount x)) <$> income) (m, c)))
              (λ m c, wrap64 (group_total
                 ((λ x, (transaction_key x, t_amount x)) <$> expenses) (m, c))))
    as [Hsum Hnan].
  rewrite <- Ei, <- Ee in Hsum, Hnan.
  split; [exact Hnan|]. rewrite Hsum. by rewrite !cells_sum_pivot_of.
Qed.

(** X8.  Over all months, the Net column adds up, in int64, to the Inflow
    amounts minus the Outflow amounts of the input. *)
Theorem net_cash_flow_total (r : financial_data) (h' : heap) :
  run = (Ok r, h') →
  ∃ mcf,
    h' !! monthly_cash_flow r = Some (Pivot mcf)
    ∧ isum ((λ m, skipna (default NaN (at_ mcf m (Str "Net")))) <$> index mcf)
      = wrap64 (Zsum (f_amount <$> filter (λ x, f_type x = "Inflow") cash)
                - Zsum (f_amount <$> filter (λ x, f_type x = "Outflow") cash)).
Proof.
  intros (Hin & Hout & -> & ->)%run_Ok.
  destruct (lookup_objects h model) as (_ & _ & _ & _ & Hmcf).
  eexists. split; [done|].
  set (total (ty : string) (m : period) :=
         group_sum cash_flow_key f_amount cash m (Str ty)).
  rewrite (isum_congr _ (λ m, total "Inflow" m - total "Outflow" m)).
  - unfold isum. rewrite Zsum_minus. unfold cash_flow_of; simpl.
    rewrite index_setitem. unfold total.
    rewrite !(sum_column cash_flow_key f_amount cash);
      try apply NoDup_index_pivot_of;
      try (intros x Hx; apply elem_of_index_pivot_of; by exists x).
    do 4 f_equal; apply list_filter_iff; intros x; simpl;
      split; congruence.
  - intros m Hm.
    destruct (cash_flow_cells income expenses inventory cash m Hin Hout Hm)
      as (_ & _ & ->). simpl. apply wrap64_idemp.
Qed.

(** X9.  For each category, the cells of its column add up, in int64, to the
    amounts of the rows of that category. *)
Theorem income_column_is_category_total (r : financial_data) (h' : heap)
    (c : string) :
  c ∈ t_category <$> income →
  run = (Ok r, h') →
  ∃ mi,
    h' !! monthly_income r = Some (Pivot mi)
    ∧ isum ((λ m, skipna (default NaN (at_ mi m (Str c)))) <$> index mi)
      = isum (t_amount <$> filter (λ x, t_category x = c) income).
Proof.
  intros Hc (_ & _ & -> & ->)%run_Ok.
  destruct (lookup_objects h model) as (Hmi & _).
  eexists. split; [done|]. simpl.
  rewrite (isum_congr _
             (λ m, group_sum transaction_key t_amount income m (Str c))).
  - unfold isum. rewrite (sum_column transaction_key t_amount income);
      [|apply NoDup_index_pivot_of
       |intros x Hx; apply elem_of_index_pivot_of; by exists x].
    do 3 f_equal; apply list_filter_iff; intros x; simpl;
      split; congruence.
  - intros m Hm. rewrite pivot_of_sums_groups; [apply wrap64_idemp|done|].
    apply elem_of_columns_pivot_of.
    apply list_elem_of_fmap in Hc as (x & -> & Hx). by exists x.
Qed.

(** X10.  Non-negative amounts whose sum fits int64 give non-negative cells
    and a non-negative total. *)
Theorem nonnegative_amounts_stay_nonnegative (r : financial_data) (h' : heap) :
  (∀ x, x ∈ income → 0 ≤ t_amount x) →
  Zsum (t_amount <$> income) < 2 ^ 63 →
  run = (Ok r, h') →
  ∃ mi,
    h' !! monthly_income r = Some (Pivot mi)
    ∧ (∀ m c v, at_ mi m c = Some (Val v) → 0 ≤ v)
    ∧ 0 ≤ total_income r.
Proof.
  intros Hpos Hfit (_ & _ & -> & ->)%run_Ok.
  destruct (lookup_objects h model) as (Hmi & _).
  assert (0 < 2 ^ 63) as H63 by done.
  eexists. split; [done|]. simpl. split.
  - intros m c v Hv. destruct (at_Some_elem _ _ _ _ Hv) as [Hm Hc].
    rewrite pivot_of_sums_groups in Hv by done. injection Hv as <-.
    pose proof (group_sum_nonneg transaction_key t_amount income m c Hpos).
    pose proof (group_sum_le transaction_key t_amount income m c Hpos).
    rewrite wrap64_id; lia.
  - assert (0 ≤ Zsum (t_amount <$> income)).
    { apply Zsum_nonneg. intros z (x & -> & Hx)%list_elem_of_fmap.
      by apply Hpos. }
    unfold isum. rewrite wrap64_id; lia.
Qed.
End DataModelFacts.

(** ** The order of the rows *)

Lemma flow_series_perm (cash cash' : list cash_flow) (ty : string) :
  cash ≡ₚ cash' → flow_series cash ty = flow_series cash' ty.
Proof.
  intros Hc. unfold flow_series.
  rewrite (pivot_of_perm cash_flow_key f_amount cash cash') by done.
  apply list_fmap_ext. intros _ m _. do 3 f_equal.
  rewrite !(group_total_group_sum cash_flow_key f_amount).
  by apply group_sum_perm.
Qed.

Lemma tables_of_perm (income income' expenses expenses' : list transaction)
    (inventory inventory' : list stock) (cash cash' : list cash_flow) :
  income ≡ₚ income' → expenses ≡ₚ expenses' →
  inventory ≡ₚ inventory' → cash ≡ₚ cash' →
  tables_of income expenses inventory cash
  = tables_of income' expenses' inventory' cash'.
Proof.
  intros Hi He Hv Hc. unfold tables_of.
  rewrite (pivot_of_perm transaction_key t_amount income income') by done.
  rewrite (pivot_of_perm transaction_key t_amount expenses expenses') by done.
  rewrite (pivot_of_perm stock_key stock_value inventory inventory') by done.
  rewrite (pivot_of_perm cash_flow_key f_amount cash cash') by done.
  rewrite (flow_series_perm cash cash' "Inflow") by done.
  rewrite (flow_series_perm cash cash' "Outflow") by done.
  unfold isum.
  rewrite (Zsum_perm (t_amount <$> income) (t_amount <$> income'))
    by (by rewrite Hi).
  rewrite (Zsum_perm (t_amount <$> expenses) (t_amount <$> expenses'))
    by (by rewrite He).
  rewrite (Zsum_perm (stock_value <$> inventory) (stock_value <$> inventory'))
    by (by rewrite Hv).
  done.
Qed.

(** X11.  Reordering the rows of the four tables, whose amounts are int64,
    changes nothing: the call ends the same way, and when it returns, it
    returns the same totals and the same five tables. *)
Theorem row_order_does_not_matter
    (income income' expenses expenses' : list transaction)
    (inventory inventory' : list stock) (cash cash' : list cash_flow)
    (h h' : heap) (li le lv lc li' le' lv' lc' : loc) :
  income ≡ₚ income' → expenses ≡ₚ expenses' →
  inventory ≡ₚ inventory' → cash ≡ₚ cash' →
  h !! li = Some (Frame (transactions_frame income)) →
  h !! le = Some (Frame (transactions_frame expenses)) →
  h !! lv = Some (Frame (inventory_frame inventory)) →
  h !! lc = Some (Frame (cash_flow_frame cash)) →
  h' !! li' = Some (Frame (transactions_frame income')) →
  h' !! le' = Some (Frame (transactions_frame expenses')) →
  h' !! lv' = Some (Frame (inventory_frame inventory')) →
  h' !! lc' = Some (Frame (cash_flow_frame cash')) →
  length h = length h' →
  (process_data li le lv lc h).1 = (process_data li' le' lv' lc' h').1
  ∧ ∀ r s, process_data li le lv lc h = (Ok r, s) →
      process_data li' le' lv' lc' h' = (Ok r, h' ++ drop (length h) s).
Proof.
  intros Pi Pe Pv Pc Hi He Hv Hc Hi' He' Hv' Hc' Hlen.
  destruct (process_data_tables income expenses inventory cash h li le lv lc
              Hi He Hv Hc) as (ext & -> & Hext & _).
  destruct (process_data_tables income' expenses' inventory' cash' h'
              li' le' lv' lc' Hi' He' Hv' Hc') as (ext' & -> & Hext' & _).
  rewrite <- (tables_of_perm income income' expenses expenses'
                inventory inventory' cash cash') in * by done.
  assert (∀ ty, ty ∈ f_type <$> cash ↔ ty ∈ f_type <$> cash') as Hty.
  { intros ty. by rewrite Pc. }
  rewrite <- Hlen. simpl.
  repeat case_decide;
    try match goal with
    | H : ?x ∈ f_type <$> cash, H' : ?x ∉ f_type <$> cash' |- _ =>
        by apply Hty in H
    | H : ?x ∉ f_type <$> cash, H' : ?x ∈ f_type <$> cash' |- _ =>
        by apply Hty in H'
    end; try done.
  split; [done|]. intros r s [= <- <-].
  rewrite drop_app_length. rewrite Hext, Hext'; by try apply Hty.
Qed.

(** ** Profit and loss, month by month *)

(** The cells of one row add up to the amounts of that month. *)
Lemma sum_row {A : Type} (k : A → key) (v : A → Z) (t : list A)
    (cols : list label) (m : period) :
  NoDup cols → (∀ x, x ∈ t → (k x).2 ∈ cols) →
  Zsum (group_sum k v t m <$> cols)
  = Zsum (v <$> filter (λ x, (k x).1 = m) t).
Proof.
  intros Hcols. induction t as [|x t IH]; intros Hin.
  - rewrite (Zsum_ext _ (λ _, 0)); [apply Zsum_zero|done].
  - rewrite (Zsum_ext _
      (λ c, (if decide (c = (k x).2)
             then (if decide ((k x).1 = m) then v x else 0) else 0)
            + group_sum k v t m c)).
    + rewrite Zsum_plus, IH, Zsum_indicator, filter_cons by
        (done || (intros y Hy; by apply Hin, list_elem_of_further)).
      rewrite decide_True by apply Hin, list_elem_of_here.
      destruct (decide ((k x).1 = m)); by zsum.
    + intros c _. unfold group_sum. rewrite filter_cons.
      destruct (k x) as [m0 c0]; simpl.
      repeat case_decide; zsum; congruence || lia.
Qed.

Lemma filter_nil_iff {A : Type} (P : A → Prop) `{∀ x, Decision (P x)}
    (t : list A) :
  filter P t = [] ↔ ¬ ∃ x, x ∈ t ∧ P x.
Proof.
  split.
  - intros E (x & Hx & HP).
    assert (x ∈ filter P t) as Hf by (by apply list_elem_of_filter).
    rewrite E in Hf. by apply not_elem_of_nil in Hf.
  - intros Hno. destruct (filter P t) as [|x l] eqn:E; [done|].
    destruct Hno. exists x. apply and_comm, (list_elem_of_filter P).
    rewrite E. apply list_elem_of_here.
Qed.

(** The int64 sum of the cells of one row. *)
Lemma row_isum {A : Type} (k : A → key) (v : A → Z) (t : list A) (m : period) :
  isum ((λ c, wrap64 (group_total ((λ x, (k x, v x)) <$> t) (m, c)))
          <$> columns (pivot_of k v t))
  = isum (v <$> filter (λ x, (k x).1 = m) t).
Proof.
  rewrite (isum_wrap (λ c, group_total ((λ x, (k x, v x)) <$> t) (m, c))).
  unfold isum. f_equal.
  rewrite (Zsum_ext _ (group_sum k v t m))
    by (intros c _; apply group_total_group_sum).
  apply sum_row;
    [apply NoDup_columns_pivot_of
    |intros x Hx; apply elem_of_columns_pivot_of; by exists x].
Qed.

(** The row sums of a table, month by month. *)
Lemma assoc_row_sums {A : Type} (k : A → key) (v : A → Z) (t : list A)
    (m : period) :
  assoc m (sum_axis1 (pivot_of k v t))
  = match filter (λ x, (k x).1 = m) t with
    | [] => None
    | x :: l => Some (Val (isum (v <$> x :: l)))
    end.
Proof.
  rewrite (pivot_of_tabulate k v t), sum_axis1_tabulate.
  rewrite (assoc_tabulate
             (λ m, Val (isum ((λ c, wrap64 (group_total
                                              ((λ x, (k x, v x)) <$> t) (m, c)))
                                <$> columns (pivot_of k v t))))).
  rewrite row_isum.
  destruct (filter (λ x, (k x).1 = m) t) as [|x l] eqn:E.
  - apply filter_nil_iff in E. rewrite decide_False; [done|].
    by rewrite elem_of_index_pivot_of.
  - rewrite decide_True; [done|].
    apply elem_of_index_pivot_of. exists x.
    apply and_comm, (list_elem_of_filter (λ x, (k x).1 = m)).
    rewrite E. apply list_elem_of_here.
Qed.

Lemma filter_cons_elem {A : Type} (P : A → Prop) `{∀ x, Decision (P x)}
    (t : list A) (x : A) (l : list A) :
  filter P t = x :: l → ∃ y, y ∈ t ∧ P y.
Proof.
  intros E. exists x. apply and_comm, (list_elem_of_filter P).
  rewrite E. apply list_elem_of_here.
Qed.

Section ProfitAndLoss.
Context (income expenses : list transaction).
Context (inventory : list stock) (cash : list cash_flow).
Context (h : heap) (income_df expense_df inventory_df cash_flow_df : loc).
Hypothesis Hincome : h !! income_df = Some (Frame (transactions_frame income)).
Hypothesis Hexpense : h !! expense_df = Some (Frame (transactions_frame expenses)).
Hypothesis Hinventory : h !! inventory_df = Some (Frame (inventory_frame inventory)).
Hypothesis Hcash : h !! cash_flow_df = Some (Frame (cash_flow_frame cash)).

(** X12.  [monthly_pnl] has one entry for every month with an income or
    expense row, in ascending order.  The entry is NaN when the month has rows
    of one kind only.  When it has rows of both kinds, the entry is the income
    of the month minus its expenses: in int64 when the two tables have the
    same months, and in float64, on the rounded int64 sums, when they
    differ. *)
Theorem monthly_pnl_by_month (r : financial_data) (h' : heap) :
  process_data income_df expense_df inventory_df cash_flow_df h = (Ok r, h') →
  ∃ mi me pnl,
    h' !! monthly_income r = Some (Pivot mi)
    ∧ h' !! monthly_expenses r = Some (Pivot me)
    ∧ h' !! monthly_pnl r = Some (SeriesObj pnl)
    ∧ StronglySorted period_le pnl.*1
    ∧ NoDup pnl.*1
    ∧ ∀ m,
        assoc m pnl
        = match filter (λ x, month_of (t_date x) = m) income,
                filter (λ x, month_of (t_date x) = m) expenses with
          | [], [] => None
          | x :: i, y :: e =>
              Some (Val (pnl_entry (bool_decide (index mi = index me))
                           (Zsum (t_amount <$> x :: i))
                           (Zsum (t_amount <$> y :: e))))
          | _, _ => Some NaN
          end.
Proof.
  intros (_ & _ & -> & ->)%(process_data_tables_Ok income expenses inventory cash);
    [|done..].
  destruct (lookup_objects h (tables_of income expenses inventory cash))
    as (Hmi & Hme & Hpnl & _).
  do 3 eexists. do 3 (split; [done|]). unfold pnl_of; simpl.
  set (Pi := pivot_of transaction_key t_amount income).
  set (Pe := pivot_of transaction_key t_amount expenses).
  assert (∀ m x l, filter (λ x, month_of (t_date x) = m) income = x :: l →
                   m ∈ index Pi) as Hini.
  { intros m x l E. apply elem_of_index_pivot_of.
    by apply (filter_cons_elem (λ x, month_of (t_date x) = m)) in E. }
  assert (∀ m x l, filter (λ x, month_of (t_date x) = m) expenses = x :: l →
                   m ∈ index Pe) as Hine.
  { intros m x l E. apply elem_of_index_pivot_of.
    by apply (filter_cons_elem (λ x, month_of (t_date x) = m)) in E. }
  assert (∀ m, filter (λ x, month_of (t_date x) = m) income = [] →
               m ∉ index Pi) as Hnoti.
  { intros m E%filter_nil_iff. unfold Pi, Pe. by rewrite elem_of_index_pivot_of. }
  assert (∀ m, filter (λ x, month_of (t_date x) = m) expenses = [] →
               m ∉ index Pe) as Hnote.
  { intros m E%filter_nil_iff. unfold Pi, Pe. by rewrite elem_of_index_pivot_of. }
  destruct (decide (index Pi = index Pe)) as [Hidx|Hidx].
  - rewrite (bool_decide_eq_true_2 _ Hidx).
    pose proof (pivot_of_tabulate transaction_key t_amount income) as Ei.
    pose proof (pivot_of_tabulate transaction_key t_amount expenses) as Ee.
    fold Pi in Ei. fold Pe in Ee. rewrite <- Hidx in Ee.
    rewrite (f_equal sum_axis1 Ei), (f_equal sum_axis1 Ee).
    rewrite !sum_axis1_tabulate, series_sub_same_index.
    rewrite (fst_tabulate (λ m, Val _)).
    split; [|split].
    + apply (pivot_of_keyed_by transaction_key t_amount income).
    + apply NoDup_index_pivot_of.
    + intros m. rewrite (assoc_tabulate (λ m, Val _)).
      unfold Pi, Pe. rewrite !row_isum. fold Pi Pe. simpl.
      destruct (filter (λ x, month_of (t_date x) = m) income) as [|x i] eqn:Fi,
               (filter (λ x, month_of (t_date x) = m) expenses) as [|y e] eqn:Fe.
      * rewrite decide_False; [done|by apply Hnoti].
      * apply Hine in Fe. rewrite <- Hidx in Fe. by apply Hnoti in Fi.
      * apply Hini in Fi. rewrite Hidx in Fi. by apply Hnote in Fe.
      * rewrite decide_True by (by eapply Hini).
        simpl. do 2 f_equal. apply wrap64_sub.
  - rewrite (bool_decide_eq_false_2 _ Hidx).
    assert ((sum_axis1 Pi).*1 ≠ (sum_axis1 Pe).*1) as Hne
      by (by rewrite !index_sum_axis1).
    rewrite (index_series_sub _ _ Hne).
    split; [|split].
    + apply (unique_sorted_sorted period_leb).
    + apply NoDup_unique_sorted.
    + intros m. rewrite (assoc_series_sub _ _ _ Hne).
      unfold Pi, Pe. rewrite !assoc_row_sums, !index_sum_axis1. fold Pi Pe.
      simpl.
      destruct (filter (λ x, month_of (t_date x) = m) income) as [|x i] eqn:Fi,
               (filter (λ x, month_of (t_date x) = m) expenses) as [|y e] eqn:Fe;
        simpl.
      * rewrite decide_False; [done|].
        rewrite elem_of_app. intros [?|?]; [by eapply Hnoti|by eapply Hnote].
      * rewrite decide_True; [done|].
        rewrite elem_of_app. right. by eapply Hine.
      * rewrite decide_True; [done|].
        rewrite elem_of_app. left. by eapply Hini.
      * rewrite decide_True; [done|].
        rewrite elem_of_app. left. by eapply Hini.
Qed.
End ProfitAndLoss.

(** ** New objects, and the first table that fails *)

Section Calls.
Context (h : heap) (income_df expense_df inventory_df cash_flow_df : loc).
Context (fi fe fv fc : frame).
Hypothesis Hincome : h !! income_df = Some (Frame fi).
Hypothesis Hexpense : h !! expense_df = Some (Frame fe).
Hypothesis Hinventory : h !! inventory_df = Some (Frame fv).
Hypothesis Hcash : h !! cash_flow_df = Some (Frame fc).

(** X13.  The five tables of a returned dict are new objects: five distinct
    references, none of them in the store before the call, all of them in the
    store after it, which has grown by exactly these five. *)
Theorem returned_tables_are_new (r : financial_data) (h' : heap) :
  process_data income_df expense_df inventory_df cash_flow_df h = (Ok r, h') →
  let refs := [monthly_income r; monthly_expenses r; monthly_pnl r;
               monthly_inventory_value r; monthly_cash_flow r] in
  NoDup refs
  ∧ (∀ l, l ∈ refs → h !! l = None ∧ is_Some (h' !! l))
  ∧ length h' = (length h + 5)%nat.
Proof.
  intros Hrun.
  destruct (process_data_inv _ _ _ _ _ _ _ _ _
              Hincome Hexpense Hinventory Hcash _ _ Hrun)
    as (t & _ & -> & ->).
  simpl. split; [|split].
  - repeat (apply NoDup_cons; split;
              [rewrite ?elem_of_cons, elem_of_nil; lia|]).
    apply NoDup_nil_2.
  - intros l Hl. split.
    + apply lookup_ge_None.
      rewrite !elem_of_cons, elem_of_nil in Hl. lia.
    + apply lookup_lt_is_Some. rewrite length_app. simpl.
      rewrite !elem_of_cons, elem_of_nil in Hl. lia.
  - by rewrite length_app.
Qed.

Lemma income_failure (e : exn) :
  monthly_sum fi "category" "amount" = Raise e →
  process_data income_df expense_df inventory_df cash_flow_df h = (Raise e, h).
Proof.
  intros E. rewrite <- (app_nil_r h).
  run. by rewrite app_nil_r.
Qed.

(** X14.  A call on an income table without one of the columns date, category
    and amount raises before anything is allocated: the store stays as it was.
    The exception is the KeyError of a missing column, or the TypeError of a
    date column that holds no datetimes. *)
Theorem missing_income_column_raises (name : string) :
  name ∈ ["date"; "category"; "amount"] →
  assoc name fi = None →
  ∃ e,
    process_data income_df expense_df inventory_df cash_flow_df h = (Raise e, h)
    ∧ ((e = TypeError
        ∧ ∃ c, assoc "date" fi = Some c ∧ ∀ v, c ≠ Datetime v)
       ∨ ∃ n, n ∈ ["date"; "category"; "amount"] ∧ assoc n fi = None
              ∧ e = KeyError (Str n)).
Proof.
  intros Hname Hnone.
  assert (∃ e, monthly_sum fi "category" "amount" = Raise e
               ∧ ((e = TypeError
                   ∧ ∃ c, assoc "date" fi = Some c ∧ ∀ v, c ≠ Datetime v)
                  ∨ ∃ n, n ∈ ["date"; "category"; "amount"] ∧ assoc n fi = None
                         ∧ e = KeyError (Str n))) as (e & E & He).
  { unfold monthly_sum, groupby_month, getitem.
    destruct (assoc "date" fi) as [d|] eqn:Ed; simpl.
    - destruct d as [v|v|v]; simpl;
        [|eexists; split; [done|left; split; [done|by eexists]]..].
      destruct (assoc "category" fi) as [c|] eqn:Ec; simpl.
      + destruct (assoc "amount" fi) as [a|] eqn:Ea; simpl.
        * rewrite !elem_of_cons, elem_of_nil in Hname.
          destruct Hname as [->|[->|[->|[]]]]; congruence.
        * eexists; split; [done|]. right. exists "amount".
          split; [|done]. rewrite !elem_of_cons. tauto.
      + eexists; split; [done|]. right. exists "category".
        split; [|done]. rewrite !elem_of_cons. tauto.
    - eexists; split; [done|]. right. exists "date".
      split; [|done]. rewrite !elem_of_cons. tauto. }
  exists e. split; [by apply income_failure|done].
Qed.
End Calls.

(** ** The upload path *)





Section Uploads.
Context (parse_date : string → option date) (from_epoch : Z → date).




(** X17.  [main] asks for the files exactly when one of the four is missing. *)
Theorem main_warns_iff_file_missing
    (income_file expense_file inventory_file cash_flow_file : option upload)
    (generate_report : bool) :
  main parse_date from_epoch income_file expense_file inventory_file
       cash_flow_file generate_report = Warning
  ↔ income_file = None ∨ expense_file = None
    ∨ inventory_file = None ∨ cash_flow_file = None.
Proof.
  unfold main.
  destruct income_file as [i|], expense_file as [e|],
           inventory_file as [v|], cash_flow_file as [c|];
    try (split; [intros _|done]; tauto).
  destruct (load_files parse_date from_epoch i e v c) as [[[[fi fe] fv] fc]|];
    [destruct generate_report|]; (split; [done|]); by intros [|[|[|]]].
Qed.

(** X18.  The aggregator runs only on request: when [main] gets as far as
    [process_data], the button was pressed, all four files were uploaded and
    loaded, and the call is made on the four loaded tables, in the order
    income, expenses, inventory, cash flow, in a store that holds nothing
    else. *)
Theorem aggregator_runs_only_on_request
    (income_file expense_file inventory_file cash_flow_file : option upload)
    (generate_report : bool) (x : result financial_data * heap) :
  main parse_date from_epoch income_file expense_file inventory_file
       cash_flow_file generate_report = Processed x →
  generate_report = true
  ∧ ∃ i e v c fi fe fv fc,
      income_file = Some i ∧ expense_file = Some e
      ∧ inventory_file = Some v ∧ cash_flow_file = Some c
      ∧ load_files parse_date from_epoch i e v c = Some (fi, fe, fv, fc)
      ∧ x = process_data 0%nat 1%nat 2%nat 3%nat
              [Frame fi; Frame fe; Frame fv; Frame fc].
Proof.
  unfold main.
  destruct income_file as [i|], expense_file as [e|],
           inventory_file as [v|], cash_flow_file as [c|]; try done.
  destruct (load_files parse_date from_epoch i e v c)
    as [[[[fi fe] fv] fc]|] eqn:E; [|done].
  destruct generate_report; [|done].
  intros [= <-]. split; [done|]. by exists i, e, v, c, fi, fe, fv, fc.
Qed.
End Uploads.

(** ** The exporters on complete and on incomplete input *)

Lemma generate_pdf_report_Ok (data : gmap string datum)
    (charts : gmap string figure) (filename : string) (d : disk)
    (f1 f2 f3 f4 f5 : figure) (ti te tiv : Z) :
  charts !! "income_by_category" = Some f1 →
  charts !! "expenses_by_category" = Some f2 →
  charts !! "pnl_over_time" = Some f3 →
  charts !! "inventory_by_product" = Some f4 →
  charts !! "cash_flow" = Some f5 →
  data !! "total_income" = Some (Number ti) →
  data !! "total_expenses" = Some (Number te) →
  data !! "total_inventory_value" = Some (Number tiv) →
  generate_pdf_report data charts filename d
  = (Ok tt, <[filename := File (pdf_document f1 f2 f3 f4 f5 ti te tiv) true]> d).
Proof.
  intros C1 C2 C3 C4 C5 D1 D2 D3. unfold generate_pdf_report.
  export. reflexivity.
Qed.

Ltac export_fails := export; simpl; by intros [=].

Ltac key_cases H :=
  unfold chart_keys, total_keys, table_keys in H;
  rewrite ?elem_of_cons, elem_of_nil in H;
  repeat match type of H with _ ∨ _ => destruct H as [H|H] end;
  [subst; eauto..|done].

(** X19.  The PDF exporter returns exactly when the chart dict has the five
    charts and the data dict has the three totals as numbers; the monthly
    tables are not looked at. *)
Theorem pdf_report_succeeds_iff (data : gmap string datum)
    (charts : gmap string figure) (filename : string) (d : disk) :
  (generate_pdf_report data charts filename d).1 = Ok tt
  ↔ (∀ k, k ∈ chart_keys → is_Some (charts !! k))
    ∧ (∀ k, k ∈ total_keys → ∃ z, data !! k = Some (Number z)).
Proof.
  split.
  - unfold generate_pdf_report.
    destruct (charts !! "income_by_category") as [f1|] eqn:C1; [|export_fails].
    destruct (charts !! "expenses_by_category") as [f2|] eqn:C2; [|export_fails].
    destruct (charts !! "pnl_over_time") as [f3|] eqn:C3; [|export_fails].
    destruct (charts !! "inventory_by_product") as [f4|] eqn:C4; [|export_fails].
    destruct (charts !! "cash_flow") as [f5|] eqn:C5; [|export_fails].
    destruct (data !! "total_income") as [[ti| |]|] eqn:D1; try export_fails.
    destruct (data !! "total_expenses") as [[te| |]|] eqn:D2; try export_fails.
    destruct (data !! "total_inventory_value") as [[tv| |]|] eqn:D3;
      try export_fails.
    intros _. split; intros k Hk; key_cases Hk.
  - intros [Hc Hd].
    destruct (Hc "income_by_category") as [f1 C1]; [by repeat constructor|].
    destruct (Hc "expenses_by_category") as [f2 C2]; [by repeat constructor|].
    destruct (Hc "pnl_over_time") as [f3 C3]; [by repeat constructor|].
    destruct (Hc "inventory_by_product") as [f4 C4]; [by repeat constructor|].
    destruct (Hc "cash_flow") as [f5 C5]; [by repeat constructor|].
    destruct (Hd "total_income") as [ti D1]; [by repeat constructor|].
    destruct (Hd "total_expenses") as [te D2]; [by repeat constructor|].
    destruct (Hd "total_inventory_value") as [tiv D3]; [by repeat constructor|].
    by erewrite generate_pdf_report_Ok.
Qed.



(** ** From the aggregator to the two files *)


Section Exports.
Context (h : heap) (income_df expense_df inventory_df cash_flow_df : loc).
Context (fi fe fv fc : frame).
Hypothesis Hincome : h !! income_df = Some (Frame fi).
Hypothesis Hexpense : h !! expense_df = Some (Frame fe).
Hypothesis Hinventory : h !! inventory_df = Some (Frame fv).
Hypothesis Hcash : h !! cash_flow_df = Some (Frame fc).


End Exports.

(** X23.  When the Excel export raises, the PDF export is not started: the
    second target path is left as it was. *)
Theorem failed_excel_export_skips_pdf (pd : pandas) (data : gmap string datum)
    (charts : gmap string figure) (temp_excel temp_pdf : string) (d : disk)
    (e : exn) :
  (generate_excel_report pd data temp_excel d).1 = Raise e →
  temp_excel ≠ temp_pdf →
  (export_reports pd data charts temp_excel temp_pdf d).1 = Raise e
  ∧ (export_reports pd data charts temp_excel temp_pdf d).2 !! temp_pdf
    = d !! temp_pdf.
Proof.
  intros Hx Hne. unfold export_reports, mbind, M_bind.
  assert (∃ f, (generate_excel_report pd data temp_excel d).2
               = <[temp_excel := f]> d) as (f & Hd)
    by apply with_excel_writer_target.
  destruct (generate_excel_report pd data temp_excel d) as [[[]|e'] d'];
    simpl in *; [done|].
  injection Hx as ->. split; [done|]. subst d'. by rewrite lookup_insert_ne.
Qed.

(** * The further properties on concrete inputs *)

Lemma monthly_amounts_are_group_sums_witness :
  ∃ mi me,
    ex_store' !! monthly_income ex_report = Some (Pivot mi)
    ∧ ex_store' !! monthly_expenses ex_report = Some (Pivot me)
    ∧ sums_groups mi transaction_key t_amount ex_income
    ∧ sums_groups me transaction_key t_amount ex_expenses.
Proof.
  apply (monthly_amounts_are_group_sums ex_income ex_expenses ex_inventory
           ex_cash ex_store 0%nat 1%nat 2%nat 3%nat
           eq_refl eq_refl eq_refl eq_refl ex_report ex_store').
  vm_compute. reflexivity.
Defined.

Lemma monthly_inventory_is_quantity_times_cost_witness :
  ∃ mv,
    ex_store' !! monthly_inventory_value ex_report = Some (Pivot mv)
    ∧ sums_groups mv stock_key (λ x, s_quantity x * s_cost_price x) ex_inventory.
Proof.
  apply (monthly_inventory_is_quantity_times_cost ex_income ex_expenses
           ex_inventory ex_cash ex_store 0%nat 1%nat 2%nat 3%nat
           eq_refl eq_refl eq_refl eq_refl ex_report ex_store').
  vm_compute. reflexivity.
Defined.

Lemma tables_are_keyed_by_input_witness :
  ∃ mi me mv,
    ex_store' !! monthly_income ex_report = Some (Pivot mi)
    ∧ ex_store' !! monthly_expenses ex_report = Some (Pivot me)
    ∧ ex_store' !! monthly_inventory_value ex_report = Some (Pivot mv)
    ∧ keyed_by mi transaction_key ex_income
    ∧ keyed_by me transaction_key ex_expenses
    ∧ keyed_by mv stock_key ex_inventory.
Proof.
  apply (tables_are_keyed_by_input ex_income ex_expenses ex_inventory
           ex_cash ex_store 0%nat 1%nat 2%nat 3%nat
           eq_refl eq_refl eq_refl eq_refl ex_report ex_store').
  vm_compute. reflexivity.
Defined.

Lemma totals_reconcile_witness :
  ∃ me mv,
    ex_store' !! monthly_expenses ex_report = Some (Pivot me)
    ∧ ex_store' !! monthly_inventory_value ex_report = Some (Pivot mv)
    ∧ total_income ex_report = isum (t_amount <$> ex_income)
    ∧ total_expenses ex_report = isum (t_amount <$> ex_expenses)
    ∧ total_inventory_value ex_report
      = isum ((λ x, s_quantity x * s_cost_price x) <$> ex_inventory)
    ∧ cells_sum me = total_expenses ex_report
    ∧ cells_sum mv = total_inventory_value ex_report.
Proof.
  apply (totals_reconcile ex_income ex_expenses ex_inventory
           ex_cash ex_store 0%nat 1%nat 2%nat 3%nat
           eq_refl eq_refl eq_refl eq_refl ex_report ex_store').
  vm_compute. reflexivity.
Defined.

Lemma monthly_cash_flow_is_sum_by_type_witness :
  ∃ mcf,
    ex_store' !! monthly_cash_flow ex_report = Some (Pivot mcf)
    ∧ ∀ m, m ∈ index mcf →
        let total ty := group_sum cash_flow_key f_amount ex_cash m (Str ty) in
        at_ mcf m (Str "Inflow") = Some (Val (wrap64 (total "Inflow")))
        ∧ at_ mcf m (Str "Outflow") = Some (Val (wrap64 (total "Outflow")))
        ∧ at_ mcf m (Str "Net")
          = Some (Val (wrap64 (total "Inflow" - total "Outflow"))).
Proof.
  apply (monthly_cash_flow_is_sum_by_type ex_income ex_expenses ex_inventory
           ex_cash ex_store 0%nat 1%nat 2%nat 3%nat
           eq_refl eq_refl eq_refl eq_refl ex_report ex_store').
  vm_compute. reflexivity.
Defined.

Lemma monthly_cash_flow_shape_witness :
  ∃ mcf,
    ex_store' !! monthly_cash_flow ex_report = Some (Pivot mcf)
    ∧ (∀ m, m ∈ index mcf ↔ ∃ x, x ∈ ex_cash ∧ month_of (f_date x) = m)
    ∧ (∀ c, c ∈ columns mcf
            ↔ c = Str "Net" ∨ ∃ x, x ∈ ex_cash ∧ Str (f_type x) = c)
    ∧ ("Net" ∉ f_type <$> ex_cash →
       ∃ types, columns mcf = types ++ [Str "Net"]
                ∧ StronglySorted label_le types ∧ Str "Net" ∉ types).
Proof.
  apply (monthly_cash_flow_shape ex_income ex_expenses ex_inventory
           ex_cash ex_store 0%nat 1%nat 2%nat 3%nat
           eq_refl eq_refl eq_refl eq_refl ex_report ex_store').
  vm_compute. reflexivity.
Defined.

Lemma monthly_pnl_sums_to_net_profit_witness :
  ∃ pnl,
    ex_store' !! monthly_pnl ex_report = Some (SeriesObj pnl)
    ∧ (NaN ∉ pnl.*2)
    ∧ isum (skipna <$> pnl.*2)
      = wrap64 (total_income ex_report - total_expenses ex_report).
Proof.
  apply (monthly_pnl_sums_to_net_profit ex_income ex_expenses ex_inventory
           ex_cash ex_store 0%nat 1%nat 2%nat 3%nat
           eq_refl eq_refl eq_refl eq_refl ex_report ex_store').
  - intros m. split; intros (x & Hx & <-);
      repeat (apply elem_of_cons in Hx as [->|Hx]);
      try (by apply elem_of_nil in Hx); simpl.
    + exists (Transaction (Date 2023 3 15) "Rent" 400).
      split; [by repeat constructor|done].
    + exists (Transaction (Date 2023 1 20) "Rent" 400).
      split; [by repeat constructor|done].
    + exists (Transaction (Date 2023 3 15) "Rent" 400).
      split; [by repeat constructor|done].
    + exists (Transaction (Date 2023 3 15) "Rent" 400).
      split; [by repeat constructor|done].
    + exists (Transaction (Date 2023 3 15) "Product Sales" 1000).
      split; [by repeat constructor|done].
    + exists (Transaction (Date 2023 1 15) "Service Fees" 10).
      split; [by repeat constructor|done].
    + exists (Transaction (Date 2023 1 15) "Service Fees" 10).
      split; [by repeat constructor|done].
  - vm_compute. reflexivity.
Defined.

Lemma net_cash_flow_total_witness :
  ∃ mcf,
    ex_store' !! monthly_cash_flow ex_report = Some (Pivot mcf)
    ∧ isum ((λ m, skipna (default NaN (at_ mcf m (Str "Net")))) <$> index mcf)
      = wrap64 (Zsum (f_amount <$> filter (λ x, f_type x = "Inflow") ex_cash)
                - Zsum (f_amount
                          <$> filter (λ x, f_type x = "Outflow") ex_cash)).
Proof.
  apply (net_cash_flow_total ex_income ex_expenses ex_inventory
           ex_cash ex_store 0%nat 1%nat 2%nat 3%nat
           eq_refl eq_refl eq_refl eq_refl ex_report ex_store').
  vm_compute. reflexivity.
Defined.

Lemma income_column_is_category_total_witness :
  ∃ mi,
    ex_store' !! monthly_income ex_report = Some (Pivot mi)
    ∧ isum ((λ m, skipna (default NaN (at_ mi m (Str "Service Fees"))))
              <$> index mi)
      = isum (t_amount <$> filter (λ x, t_category x = "Service Fees") ex_income).
Proof.
  apply (income_column_is_category_total ex_income ex_expenses ex_inventory
           ex_cash ex_store 0%nat 1%nat 2%nat 3%nat
           eq_refl eq_refl eq_refl eq_refl ex_report ex_store' "Service Fees").
  - vm_compute. by repeat constructor.
  - vm_compute. reflexivity.
Defined.

Lemma nonnegative_amounts_stay_nonnegative_witness :
  ∃ mi,
    ex_store' !! monthly_income ex_report = Some (Pivot mi)
    ∧ (∀ m c v, at_ mi m c = Some (Val v) → 0 ≤ v)
    ∧ 0 ≤ total_income ex_report.
Proof.
  apply (nonnegative_amounts_stay_nonnegative ex_income ex_expenses ex_inventory
           ex_cash ex_store 0%nat 1%nat 2%nat 3%nat
           eq_refl eq_refl eq_refl eq_refl ex_report ex_store').
  - intros x Hx. repeat (apply elem_of_cons in Hx as [->|Hx]);
      try (by apply elem_of_nil in Hx); simpl; lia.
  - reflexivity.
  - vm_compute. reflexivity.
Defined.

Lemma row_order_does_not_matter_witness :
  (process_data 0%nat 1%nat 2%nat 3%nat ex_store).1
  = (process_data 0%nat 1%nat 2%nat 3%nat
       (store_of (reverse ex_income) (reverse ex_expenses)
                 (reverse ex_inventory) (reverse ex_cash))).1
  ∧ ∀ r s, process_data 0%nat 1%nat 2%nat 3%nat ex_store = (Ok r, s) →
      process_data 0%nat 1%nat 2%nat 3%nat
        (store_of (reverse ex_income) (reverse ex_expenses)
                  (reverse ex_inventory) (reverse ex_cash))
      = (Ok r, store_of (reverse ex_income) (reverse ex_expenses)
                        (reverse ex_inventory) (reverse ex_cash)
               ++ drop (length ex_store) s).
Proof.
  apply (row_order_does_not_matter
           ex_income (reverse ex_income) ex_expenses (reverse ex_expenses)
           ex_inventory (reverse ex_inventory) ex_cash (reverse ex_cash)).
  - symmetry. apply reverse_Permutation.
  - symmetry. apply reverse_Permutation.
  - symmetry. apply reverse_Permutation.
  - symmetry. apply reverse_Permutation.
  - reflexivity.
  - reflexivity.
  - reflexivity.
  - reflexivity.
  - reflexivity.
  - reflexivity.
  - reflexivity.
  - reflexivity.
  - reflexivity.
Defined.

Lemma monthly_pnl_by_month_witness :
  ∃ mi me pnl,
    ex_store' !! monthly_income ex_report = Some (Pivot mi)
    ∧ ex_store' !! monthly_expenses ex_report = Some (Pivot me)
    ∧ ex_store' !! monthly_pnl ex_report = Some (SeriesObj pnl)
    ∧ StronglySorted period_le pnl.*1
    ∧ NoDup pnl.*1
    ∧ ∀ m,
        assoc m pnl
        = match filter (λ x, month_of (t_date x) = m) ex_income,
                filter (λ x, month_of (t_date x) = m) ex_expenses with
          | [], [] => None
          | x :: i, y :: e =>
              Some (Val (pnl_entry (bool_decide (index mi = index me))
                           (Zsum (t_amount <$> x :: i))
                           (Zsum (t_amount <$> y :: e))))
          | _, _ => Some NaN
          end.
Proof.
  apply (monthly_pnl_by_month ex_income ex_expenses ex_inventory
           ex_cash ex_store 0%nat 1%nat 2%nat 3%nat
           eq_refl eq_refl eq_refl eq_refl ex_report ex_store').
  vm_compute. reflexivity.
Defined.

Lemma returned_tables_are_new_witness :
  let refs := [monthly_income ex_report; monthly_expenses ex_report;
               monthly_pnl ex_report; monthly_inventory_value ex_report;
               monthly_cash_flow ex_report] in
  NoDup refs
  ∧ (∀ l, l ∈ refs → ex_store !! l = None ∧ is_Some (ex_store' !! l))
  ∧ length ex_store' = (length ex_store + 5)%nat.
Proof.
  apply (returned_tables_are_new ex_store 0%nat 1%nat 2%nat 3%nat
           (transactions_frame ex_income) (transactions_frame ex_expenses)
           (inventory_frame ex_inventory) (cash_flow_frame ex_cash)
           eq_refl eq_refl eq_refl eq_refl ex_report ex_store').
  vm_compute. reflexivity.
Defined.

Lemma missing_income_column_raises_witness :
  ∃ e,
    process_data 0%nat 1%nat 2%nat 3%nat
      [Frame income_without_amount; Frame (transactions_frame ex_expenses);
       Frame (inventory_frame ex_inventory); Frame (cash_flow_frame ex_cash)]
    = (Raise e,
       [Frame income_without_amount; Frame (transactions_frame ex_expenses);
        Frame (inventory_frame ex_inventory); Frame (cash_flow_frame ex_cash)])
    ∧ ((e = TypeError
        ∧ ∃ c, assoc "date" income_without_amount = Some c
               ∧ ∀ v, c ≠ Datetime v)
       ∨ ∃ n, n ∈ ["date"; "category"; "amount"]
              ∧ assoc n income_without_amount = None
              ∧ e = KeyError (Str n)).
Proof.
  apply (missing_income_column_raises
           [Frame income_without_amount; Frame (transactions_frame ex_expenses);
            Frame (inventory_frame ex_inventory); Frame (cash_flow_frame ex_cash)]
           0%nat 1%nat 2%nat 3%nat income_without_amount eq_refl "amount").
  - by repeat constructor.
  - reflexivity.
Defined.


Lemma aggregator_runs_only_on_request_witness :
  true = true
  ∧ ∃ i e v c fi fe fv fc,
      Some (Parsed csv_income) = Some i ∧ Some (Parsed csv_expenses) = Some e
      ∧ Some (Parsed csv_inventory) = Some v ∧ Some (Parsed csv_cash) = Some c
      ∧ load_files parse_iso epoch_start i e v c = Some (fi, fe, fv, fc)
      ∧ process_data 0%nat 1%nat 2%nat 3%nat
          [Frame (loaded csv_income); Frame (loaded csv_expenses);
           Frame (loaded csv_inventory); Frame (loaded csv_cash)]
        = process_data 0%nat 1%nat 2%nat 3%nat
            [Frame fi; Frame fe; Frame fv; Frame fc].
Proof.
  apply (aggregator_runs_only_on_request parse_iso epoch_start).
  vm_compute. reflexivity.
Defined.



Lemma failed_excel_export_skips_pdf_witness :
  (export_reports ex_pandas data_without_income ex_charts
     "report.xlsx" "report.pdf" ∅).1
  = Raise (KeyError (Str "monthly_income"))
  ∧ (export_reports ex_pandas data_without_income ex_charts
       "report.xlsx" "report.pdf" ∅).2 !! "report.pdf"
    = (∅ : disk) !! "report.pdf".
Proof.
  apply (failed_excel_export_skips_pdf ex_pandas data_without_income ex_charts
           "report.xlsx" "report.pdf" ∅).
  - vm_compute. reflexivity.
  - discriminate.
Defined.

